(** * The certificate backend: an Express service over an object store
      and a relational table

    The repository holds two near-identical Express applications.  Both
    expose CRUD routes for certificate records: a multipart upload is
    forwarded to the Supabase bucket [images], the public URL of the blob is
    built by string concatenation, and one parameterised SQL statement is
    run against the table [certificates].

    - [AppJs]   embeds [src/app.js]          (columns name, description,
                                              category, link, image);
    - [Part000] embeds [src/unnamed/part_000] (columns title, provider,
                                              date, link, image, and three
                                              extra listing routes).

    The two stores are external services.  Their state is made explicit
    ([World]), and what they answer when they fail is an input of every
    handler ([Env]): each handler performs at most one upload and at most
    one statement, so one possible error per call describes every
    behaviour of the environment.  What is assumed of the services:

    - an upload that reports no error stores the bytes under the given
      path, replacing what the path held; one that reports an error stores
      nothing.  The object store refusing a path that is already taken is
      the case [upload_error env = Some _].  The key the store files an
      object under is the given path for the names the client passes on
      unchanged (see [storage_upload]);
    - a statement that succeeds has the meaning of its SQL text on a table
      whose [id] column is filled from a sequence; one that fails throws
      and changes nothing.  The order of the rows in a scan without
      ORDER BY is the database's: the list of rows stands for one such
      order;
    - [undefined] and [null] parameters are both stored as NULL ([None]);
    - the path parameter [:id] is taken as the identifier it denotes; a
      text the database cannot read as an identifier makes the statement
      fail, which is the case [query_error env = Some _].

    Every call made to a store is also appended to [calls], so that "was
    never attempted" and "happens before" can be stated. *)

From stdpp Require Import base option list gmap strings sorting.

Set Default Proof Using "Type".

(** ** JavaScript values *)

(** A text field of a multipart body is a string, or [undefined] when the
    field is not sent: an [option string].  [truthy v] is [!!v] for such a
    value: [undefined] and the empty string are falsy. *)
Definition truthy (v : option string) : bool :=
  match v with
  | Some s => bool_decide (s ≠ "")
  | None => false
  end.

(** [req.file] as multer's memory storage fills it. *)
Record File := {
  originalname : string;
  buffer : list Byte.byte;
  mimetype : string
}.

(** What a failing client call carries; the handlers only read [.message]. *)
Record Error := { message : string }.

(** ** The two stores *)

(** An object of the bucket [images]. *)
Record Blob := {
  content : list Byte.byte;
  contentType : string
}.

(** The calls a handler makes to the outside, in the order it makes them. *)
Inductive Event :=
  | Upload (path : string) (b : Blob)
  | Query (text : string).

(** The request's environment: the configured base URL, and the error each
    external call reports, if any. *)
Record Env := {
  supabaseUrl : string;
  upload_error : option Error;
  query_error : option Error
}.

Section Stores.
Context {Row : Type}.
Variable row_id : Row → N.

(** The table [certificates]: its rows in heap order and the next value
    of the identifier sequence. *)
Record Table := {
  rows : list Row;
  next_id : N
}.

Record World := {
  certificates : Table;
  images : gmap string Blob;
  calls : list Event
}.

(** *** SQL statements: their effect on the table and the rows returned *)

Definition Statement : Type := Table → Table * list Row.

(** [INSERT INTO certificates (...) VALUES (...) RETURNING *] *)
Definition sql_insert (mk : N → Row) : Statement := λ t,
  let r := mk (next_id t) in
  ({| rows := rows t ++ [r]; next_id := N.succ (next_id t) |}, [r]).

(** [SELECT * FROM certificates] *)
Definition sql_select_all : Statement := λ t, (t, rows t).

(** [SELECT * FROM certificates WHERE id = $1] *)
Definition sql_select_by_id (id : N) : Statement := λ t,
  (t, filter (λ r, row_id r = id) (rows t)).

(** [UPDATE certificates SET ... WHERE id = $n RETURNING *].  The list
    keeps the rewritten row at the place of the old one.  That place is
    this definition's choice: the database promises no place to a
    rewritten row in a scan without ORDER BY, so which rows a table holds
    after an Update is stated up to the order of the rows. *)
Definition sql_update_by_id (set : Row → Row) (id : N) : Statement := λ t,
  ({| rows := (λ r, if decide (row_id r = id) then set r else r) <$> rows t;
      next_id := next_id t |},
   set <$> filter (λ r, row_id r = id) (rows t)).

(** [DELETE FROM certificates WHERE id = $1 RETURNING *] *)
Definition sql_delete_by_id (id : N) : Statement := λ t,
  ({| rows := filter (λ r, row_id r ≠ id) (rows t); next_id := next_id t |},
   filter (λ r, row_id r = id) (rows t)).

(** [SELECT * FROM certificates WHERE <column> = $1] *)
Definition sql_select_where (P : Row → Prop) `{!∀ r, Decision (P r)}
  : Statement := λ t, (t, filter P (rows t)).

(** [SELECT * FROM certificates ORDER BY <column> ASC|DESC], the order
    given as the relation "may come before".  Rows that the relation does
    not tell apart come out in the order this sort leaves them in; the
    database promises none. *)
Definition sql_select_order_by (R : relation Row)
    `{!∀ x y, Decision (R x y)} : Statement := λ t,
  (t, merge_sort R (rows t)).

(** *** Handlers: a state and exception monad over [World] *)

Inductive Completion (A : Type) :=
  | Normal (a : A)
  | Throw (e : Error).
Global Arguments Normal {A} a.
Global Arguments Throw {A} e.

Definition M (A : Type) : Type := World → Completion A * World.

Definition ret {A} (a : A) : M A := λ w, (Normal a, w).

Definition bind {A B} (m : M A) (k : A → M B) : M B := λ w,
  match m w with
  | (Normal a, w') => k a w'
  | (Throw e, w') => (Throw e, w')
  end.

Definition throw {A} (e : Error) : M A := λ w, (Throw e, w).

(** [try { m } catch (error) { h error }] *)
Definition try_catch {A} (m : M A) (h : Error → M A) : M A := λ w,
  match m w with
  | (Normal a, w') => (Normal a, w')
  | (Throw e, w') => h e w'
  end.

Definition log_call (ev : Event) (w : World) : World :=
  {| certificates := certificates w; images := images w;
     calls := calls w ++ [ev] |}.

(** [await supabase.storage.from('images').upload(path, buffer,
    { contentType })]: resolves to the [error] member of the answer.  A
    call that reports an error stores nothing.  The bucket is keyed here
    by the path as the handler passes it; the client writes that path
    into the URL of its request as it is, so for a name holding [?] or
    [#] the store files the object under what is left of the path before
    that character.  What a handler asks for is the logged [Upload]
    call; [images] shows where the object lands for the names the client
    passes on unchanged. *)
Definition storage_upload (env : Env) (path : string)
    (buf : list Byte.byte) (ctype : string) : M (option Error) := λ w,
  let b := {| content := buf; contentType := ctype |} in
  let w := log_call (Upload path b) w in
  match upload_error env with
  | Some e => (Normal (Some e), w)
  | None =>
      (Normal None,
       {| certificates := certificates w; images := <[path := b]> (images w);
          calls := calls w |})
  end.

(** [await pool.query(text, values)]: resolves to [result.rows], or
    throws.  A statement that fails changes nothing. *)
Definition pool_query (env : Env) (text : string) (stmt : Statement)
  : M (list Row) := λ w,
  let w := log_call (Query text) w in
  match query_error env with
  | Some e => (Throw e, w)
  | None =>
      let '(t, rs) := stmt (certificates w) in
      (Normal rs,
       {| certificates := t; images := images w; calls := calls w |})
  end.

(** *** Responses *)

Inductive Json :=
  | JMessage (msg : string)      (* { message: msg } *)
  | JError (msg : string)        (* { error: msg } *)
  | JRow (r : Row)
  | JRows (rs : list Row)
  | JUndefined.

Record Response := { status : N; json : Json }.

(** [res.status(code).json(result.rows[0])] *)
Definition json_rows0 (rs : list Row) : Json :=
  match rs with
  | r :: _ => JRow r
  | [] => JUndefined
  end.

(** The [catch] clause shared by every route. *)
Definition internal_error (error : Error) : M Response :=
  ret {| status := 500; json := JError (message error) |}.

(** The identifiers of a table are pairwise distinct and below the
    sequence's next value. *)
Definition table_ok (t : Table) : Prop :=
  NoDup (row_id <$> rows t) ∧ Forall (λ r, (row_id r < next_id t)%N) (rows t).

(** The identifier [i] matches no row. *)
Definition absent (i : N) (t : Table) : Prop :=
  ∀ r, r ∈ rows t → row_id r ≠ i.

(** The state a fresh deployment starts from: an empty table whose
    sequence starts at 1, an empty bucket, no call made. *)
Definition initial_world : World :=
  {| certificates := {| rows := []; next_id := 1 |};
     images := ∅; calls := [] |}.

End Stores.

Global Arguments sql_insert : simpl never.
Global Arguments sql_select_by_id : simpl never.
Global Arguments sql_update_by_id : simpl never.
Global Arguments sql_delete_by_id : simpl never.
Global Arguments sql_select_where : simpl never.
Global Arguments sql_select_order_by : simpl never.
Global Arguments Table : clear implicits.
Global Arguments World : clear implicits.
Global Arguments Statement : clear implicits.
Global Arguments M : clear implicits.
Global Arguments Json : clear implicits.
Global Arguments Response : clear implicits.
Global Arguments initial_world : clear implicits.

Global Instance M_ret {Row} : MRet (M Row) := λ A, ret.
Global Instance M_bind {Row} : MBind (M Row) := λ A B k m, bind m k.

(** The path a file is stored under, and the URL it is published at. *)
Definition object_path (f : File) : string := "public/" +:+ originalname f.

Definition public_url (env : Env) (f : File) : string :=
  supabaseUrl env +:+ "/storage/v1/object/public/images/public/" +:+
  originalname f.

(** The object an upload of [f] stores, and the call that stores it. *)
Definition blob_of (f : File) : Blob :=
  {| content := buffer f; contentType := mimetype f |}.

Definition upload_of (f : File) : Event := Upload (object_path f) (blob_of f).

(** ** [src/app.js] *)

Module AppJs.

(** A row of [certificates]. *)
Record certificate := {
  id : N;
  name : option string;
  description : option string;
  image : option string;
  category : option string;
  link : option string
}.

(** [req.body], destructured as [{ name, description, category, link }]. *)
Record Body := {
  body_name : option string;
  body_description : option string;
  body_category : option string;
  body_link : option string
}.

(** [INSERT INTO certificates (name, description, image, category, link)
     VALUES ($1, $2, $3, $4, $5) RETURNING *] *)
Definition insert_certificate (name description image category link
    : option string) : Statement certificate :=
  sql_insert (λ i,
    {| id := i; name := name; description := description; image := image;
       category := category; link := link |}).

(** [SET name = $1, description = $2, image = COALESCE($3, image),
     category = $4, link = $5] *)
Definition set_certificate (name description image category link
    : option string) (r : certificate) : certificate :=
  {| id := id r; name := name; description := description;
     image := match image with Some u => Some u | None => AppJs.image r end;
     category := category; link := link |}.

(** [UPDATE certificates SET ... WHERE id = $6 RETURNING *] *)
Definition update_certificate (name description image category link
    : option string) (i : N) : Statement certificate :=
  sql_update_by_id id (set_certificate name description image category link) i.

Definition bad_request : M certificate (Response certificate) :=
  mret {| status := 400; json := JError "Name and image are required" |}.

Definition not_found : M certificate (Response certificate) :=
  mret {| status := 404; json := JError "Certificate not found" |}.

(** [app.get('/')] *)
Definition get_root : M certificate (Response certificate) :=
  mret {| status := 200; json := JMessage "Selamat Datang Kawan..." |}.

(** [app.post('/certificate')].  The guard [!name || !file] returns
    before the [try]; past it the file is there. *)
Definition post_certificate (env : Env) (body : Body) (file : option File)
  : M certificate (Response certificate) :=
  match file with
  | None => bad_request
  | Some file =>
    if negb (truthy (body_name body)) then bad_request else
    try_catch
      (uploadError ← storage_upload env (object_path file) (buffer file)
                       (mimetype file);
       match uploadError with
       | Some e => throw e
       | None =>
         let publicURL := public_url env file in
         result ← pool_query env
           "INSERT INTO certificates (name, description, image, category, link) VALUES ($1, $2, $3, $4, $5) RETURNING *"
           (insert_certificate (body_name body) (body_description body)
              (Some publicURL) (body_category body) (body_link body));
         mret {| status := 200; json := json_rows0 result |}
       end)
      internal_error
  end.

(** [app.get('/certificates')] *)
Definition get_certificates (env : Env)
  : M certificate (Response certificate) :=
  try_catch
    (result ← pool_query env "SELECT * FROM certificates" sql_select_all;
     mret {| status := 200; json := JRows result |})
    internal_error.

(** [app.get('/certificate/:id')] *)
Definition get_certificate (env : Env) (i : N)
  : M certificate (Response certificate) :=
  try_catch
    (result ← pool_query env "SELECT * FROM certificates WHERE id = $1"
                (sql_select_by_id id i);
     match result with
     | [] => not_found
     | r :: _ => mret {| status := 200; json := JRow r |}
     end)
    internal_error.

(** [app.put('/certificate/:id')] *)
Definition put_certificate (env : Env) (i : N) (body : Body)
    (file : option File) : M certificate (Response certificate) :=
  try_catch
    (publicURL ←
       match file with
       | Some file =>
         uploadError ← storage_upload env (object_path file) (buffer file)
                         (mimetype file);
         match uploadError with
         | Some e => throw e
         | None => mret (Some (public_url env file))
         end
       | None => mret None
       end;
     result ← pool_query env
       "UPDATE certificates SET name = $1, description = $2, image = COALESCE($3, image), category = $4, link = $5 WHERE id = $6 RETURNING *"
       (update_certificate (body_name body) (body_description body)
          publicURL (body_category body) (body_link body) i);
     match result with
     | [] => not_found
     | r :: _ => mret {| status := 200; json := JRow r |}
     end)
    internal_error.

(** [app.delete('/certificate/:id')] *)
Definition delete_certificate (env : Env) (i : N)
  : M certificate (Response certificate) :=
  try_catch
    (result ← pool_query env "DELETE FROM certificates WHERE id = $1 RETURNING *"
                (sql_delete_by_id id i);
     match result with
     | [] => not_found
     | r :: _ => mret {| status := 200; json := JRow r |}
     end)
    internal_error.

(** The routes of the application. *)
Inductive Request :=
  | GetRoot
  | PostCertificate (body : Body) (file : option File)
  | GetCertificates
  | GetCertificate (i : N)
  | PutCertificate (i : N) (body : Body) (file : option File)
  | DeleteCertificate (i : N).

Definition handle (env : Env) (req : Request)
  : M certificate (Response certificate) :=
  match req with
  | GetRoot => get_root
  | PostCertificate body file => post_certificate env body file
  | GetCertificates => get_certificates env
  | GetCertificate i => get_certificate env i
  | PutCertificate i body file => put_certificate env i body file
  | DeleteCertificate i => delete_certificate env i
  end.

(** A run of the server: requests handled one after the other, each in
    its own environment. *)
Fixpoint serve (reqs : list (Env * Request)) (w : World certificate)
  : World certificate :=
  match reqs with
  | [] => w
  | (env, req) :: reqs => serve reqs (handle env req w).2
  end.

End AppJs.

(** ** [src/unnamed/part_000] *)

Module Part000.

(** A row of [certificates]. *)
Record certificate := {
  id : N;
  title : option string;
  provider : option string;
  date : option string;
  link : option string;
  image : option string
}.

(** [req.body], destructured as [{ title, provider, date, link }]. *)
Record Body := {
  body_title : option string;
  body_provider : option string;
  body_date : option string;
  body_link : option string
}.

(** [INSERT INTO certificates (title, provider, date, link, image)
     VALUES ($1, $2, $3, $4, $5) RETURNING *] *)
Definition insert_certificate (title provider date link image
    : option string) : Statement certificate :=
  sql_insert (λ i,
    {| id := i; title := title; provider := provider; date := date;
       link := link; image := image |}).

(** [SET title = $1, provider = $2, date = $3, link = $4,
     image = COALESCE($5, image)] *)
Definition set_certificate (title provider date link image
    : option string) (r : certificate) : certificate :=
  {| id := id r; title := title; provider := provider; date := date;
     link := link;
     image := match image with Some u => Some u | None => Part000.image r end
  |}.

(** [UPDATE certificates SET ... WHERE id = $6 RETURNING *] *)
Definition update_certificate (title provider date link image
    : option string) (i : N) : Statement certificate :=
  sql_update_by_id id (set_certificate title provider date link image) i.

(** The order of [ORDER BY date].  The type of the column is not in the
    repository: the values are taken as the texts the requests sent and
    compared as texts, which for dates written [YYYY-MM-DD] is the order
    of the calendar whatever the column's type ([iso_date_order] below);
    NULL counts as larger than every value, so it comes last ascending
    and first descending.  This is what the listings sort with, not what
    is claimed of them: the claim is stated with [iso_date]. *)
Definition date_le (a b : option string) : Prop :=
  match a, b with
  | Some x, Some y => String.le x y
  | _, None => True
  | None, Some _ => False
  end.

Global Instance date_le_dec : RelDecision date_le.
Proof. intros [x|] [y|]; simpl; apply _. Defined.

(** [ORDER BY date ASC] and [ORDER BY date DESC]: which row may come
    before which. *)
Definition date_asc (r1 r2 : certificate) : Prop :=
  date_le (date r1) (date r2).

Definition date_desc (r1 r2 : certificate) : Prop :=
  date_le (date r2) (date r1).

Global Instance date_asc_dec : RelDecision date_asc.
Proof. intros r1 r2. unfold date_asc. apply _. Defined.

Global Instance date_desc_dec : RelDecision date_desc.
Proof. intros r1 r2. unfold date_desc. apply _. Defined.

Definition bad_request : M certificate (Response certificate) :=
  mret {| status := 400; json := JError "Title and image are required" |}.

Definition not_found : M certificate (Response certificate) :=
  mret {| status := 404; json := JError "Certificate not found" |}.

(** [app.get('/')] *)
Definition get_root : M certificate (Response certificate) :=
  mret {| status := 200; json := JMessage "Selamat Datang Kawan..." |}.

(** [app.post('/certificate')].  The guard [!title || !file] returns
    before the [try]; past it the file is there. *)
Definition post_certificate (env : Env) (body : Body) (file : option File)
  : M certificate (Response certificate) :=
  match file with
  | None => bad_request
  | Some file =>
    if negb (truthy (body_title body)) then bad_request else
    try_catch
      (uploadError ← storage_upload env (object_path file) (buffer file)
                       (mimetype file);
       match uploadError with
       | Some e => throw e
       | None =>
         let publicURL := public_url env file in
         result ← pool_query env
           "INSERT INTO certificates (title, provider, date, link, image) VALUES ($1, $2, $3, $4, $5) RETURNING *"
           (insert_certificate (body_title body) (body_provider body)
              (body_date body) (body_link body) (Some publicURL));
         mret {| status := 200; json := json_rows0 result |}
       end)
      internal_error
  end.

(** [app.get('/certificates')] *)
Definition get_certificates (env : Env)
  : M certificate (Response certificate) :=
  try_catch
    (result ← pool_query env "SELECT * FROM certificates" sql_select_all;
     mret {| status := 200; json := JRows result |})
    internal_error.

(** [app.get('/certificate/:id')] *)
Definition get_certificate (env : Env) (i : N)
  : M certificate (Response certificate) :=
  try_catch
    (result ← pool_query env "SELECT * FROM certificates WHERE id = $1"
                (sql_select_by_id id i);
     match result with
     | [] => not_found
     | r :: _ => mret {| status := 200; json := JRow r |}
     end)
    internal_error.

(** [app.put('/certificate/:id')] *)
Definition put_certificate (env : Env) (i : N) (body : Body)
    (file : option File) : M certificate (Response certificate) :=
  try_catch
    (publicURL ←
       match file with
       | Some file =>
         uploadError ← storage_upload env (object_path file) (buffer file)
                         (mimetype file);
         match uploadError with
         | Some e => throw e
         | None => mret (Some (public_url env file))
         end
       | None => mret None
       end;
     result ← pool_query env
       "UPDATE certificates SET title = $1, provider = $2, date = $3, link = $4, image = COALESCE($5, image) WHERE id = $6 RETURNING *"
       (update_certificate (body_title body) (body_provider body)
          (body_date body) (body_link body) publicURL i);
     match result with
     | [] => not_found
     | r :: _ => mret {| status := 200; json := JRow r |}
     end)
    internal_error.

(** [app.delete('/certificate/:id')] *)
Definition delete_certificate (env : Env) (i : N)
  : M certificate (Response certificate) :=
  try_catch
    (result ← pool_query env "DELETE FROM certificates WHERE id = $1 RETURNING *"
                (sql_delete_by_id id i);
     match result with
     | [] => not_found
     | r :: _ => mret {| status := 200; json := JRow r |}
     end)
    internal_error.

(** [app.get('/certificates/provider/:provider')] *)
Definition get_certificates_provider (env : Env) (p : string)
  : M certificate (Response certificate) :=
  try_catch
    (result ← pool_query env "SELECT * FROM certificates WHERE provider = $1"
                (sql_select_where (λ r, provider r = Some p));
     mret {| status := 200; json := JRows result |})
    internal_error.

(** [app.get('/certificates/oldest')] *)
Definition get_certificates_oldest (env : Env)
  : M certificate (Response certificate) :=
  try_catch
    (result ← pool_query env "SELECT * FROM certificates ORDER BY date ASC"
                (sql_select_order_by date_asc);
     mret {| status := 200; json := JRows result |})
    internal_error.

(** [app.get('/certificates/newest')] *)
Definition get_certificates_newest (env : Env)
  : M certificate (Response certificate) :=
  try_catch
    (result ← pool_query env "SELECT * FROM certificates ORDER BY date DESC"
                (sql_select_order_by date_desc);
     mret {| status := 200; json := JRows result |})
    internal_error.

(** The routes of the application. *)
Inductive Request :=
  | GetRoot
  | PostCertificate (body : Body) (file : option File)
  | GetCertificates
  | GetCertificate (i : N)
  | PutCertificate (i : N) (body : Body) (file : option File)
  | DeleteCertificate (i : N)
  | GetCertificatesProvider (p : string)
  | GetCertificatesOldest
  | GetCertificatesNewest.

Definition handle (env : Env) (req : Request)
  : M certificate (Response certificate) :=
  match req with
  | GetRoot => get_root
  | PostCertificate body file => post_certificate env body file
  | GetCertificates => get_certificates env
  | GetCertificate i => get_certificate env i
  | PutCertificate i body file => put_certificate env i body file
  | DeleteCertificate i => delete_certificate env i
  | GetCertificatesProvider p => get_certificates_provider env p
  | GetCertificatesOldest => get_certificates_oldest env
  | GetCertificatesNewest => get_certificates_newest env
  end.

(** A run of the server: requests handled one after the other, each in
    its own environment. *)
Fixpoint serve (reqs : list (Env * Request)) (w : World certificate)
  : World certificate :=
  match reqs with
  | [] => w
  | (env, req) :: reqs => serve reqs (handle env req w).2
  end.

End Part000.

(** ** Dates as the calendar reads them

    What "sorted by date" means is stated apart from the comparison the
    listings sort with: a date written [YYYY-MM-DD] is read as the number
    YYYYMMDD, and these numbers are ordered as the calendar orders the
    dates. *)

(** The code of a character, and the value of a decimal digit (codes 48
    to 57). *)
Definition char_code (c : Stdlib.Strings.Ascii.ascii) : N :=
  Stdlib.Strings.Ascii.N_of_ascii c.

Definition digit (c : Stdlib.Strings.Ascii.ascii) : option N :=
  if decide (48 ≤ char_code c ≤ 57)%N then Some (char_code c - 48)%N
  else None.

(** A text of the form [YYYY-MM-DD] (45 is the code of the hyphen) as the
    number YYYYMMDD; any other text is not read as a date. *)
Definition iso_date (s : string) : option N :=
  match String.list_ascii_of_string s with
  | [y1; y2; y3; y4; h1; m1; m2; h2; d1; d2] =>
      if decide (char_code h1 = 45%N ∧ char_code h2 = 45%N) then
        y1 ← digit y1; y2 ← digit y2; y3 ← digit y3; y4 ← digit y4;
        m1 ← digit m1; m2 ← digit m2; d1 ← digit d1; d2 ← digit d2;
        Some (10000 * (1000 * y1 + 100 * y2 + 10 * y3 + y4)
              + 100 * (10 * m1 + m2) + (10 * d1 + d2))%N
      else None
  | _ => None
  end.

(** ** Concrete requests and states *)

Module Sample.

Definition env_ok : Env :=
  {| supabaseUrl := "https://store.example";
     upload_error := None; query_error := None |}.

Definition env_upload_fails : Env :=
  {| supabaseUrl := "https://store.example";
     upload_error := Some {| message := "The resource already exists" |};
     query_error := None |}.

Definition env_query_fails : Env :=
  {| supabaseUrl := "https://store.example";
     upload_error := None;
     query_error := Some {| message := "connection terminated" |} |}.

Definition aws_png : File :=
  {| originalname := "aws.png";
     buffer := [Byte.x89; Byte.x50; Byte.x4e; Byte.x47];
     mimetype := "image/png" |}.

Definition gcp_png : File :=
  {| originalname := "gcp.png";
     buffer := [Byte.x89; Byte.x50; Byte.x4e; Byte.x47; Byte.x0d];
     mimetype := "image/png" |}.

Definition stored : gmap string Blob :=
  {[ "public/gcp.png" := blob_of gcp_png ]}.

(** For [src/app.js]. *)
Definition body_a : AppJs.Body :=
  {| AppJs.body_name := Some "AWS Cert";
     AppJs.body_description := None;
     AppJs.body_category := Some "cloud";
     AppJs.body_link := None |}.

Definition body_a_unnamed : AppJs.Body :=
  {| AppJs.body_name := None;
     AppJs.body_description := Some "no name";
     AppJs.body_category := None;
     AppJs.body_link := None |}.

Definition row_a1 : AppJs.certificate :=
  {| AppJs.id := 1; AppJs.name := Some "GCP Cert";
     AppJs.description := Some "associate";
     AppJs.image :=
       Some "https://store.example/storage/v1/object/public/images/public/gcp.png";
     AppJs.category := Some "cloud"; AppJs.link := Some "https://gcp.example" |}.

Definition row_a2 : AppJs.certificate :=
  {| AppJs.id := 2; AppJs.name := Some "Rocq"; AppJs.description := None;
     AppJs.image := None; AppJs.category := None; AppJs.link := None |}.

Definition world_a : World AppJs.certificate :=
  {| certificates := {| rows := [row_a1; row_a2]; next_id := 3 |};
     images := stored; calls := [] |}.

(** For [src/unnamed/part_000]. *)
Definition body_b : Part000.Body :=
  {| Part000.body_title := Some "AWS Cert";
     Part000.body_provider := Some "AWS";
     Part000.body_date := None;
     Part000.body_link := None |}.

Definition body_b_untitled : Part000.Body :=
  {| Part000.body_title := Some "";
     Part000.body_provider := None;
     Part000.body_date := None;
     Part000.body_link := None |}.

Definition row_b1 : Part000.certificate :=
  {| Part000.id := 1; Part000.title := Some "GCP Cert";
     Part000.provider := Some "Google"; Part000.date := Some "2022-01-01";
     Part000.link := None;
     Part000.image :=
       Some "https://store.example/storage/v1/object/public/images/public/gcp.png"
  |}.

Definition row_b2 : Part000.certificate :=
  {| Part000.id := 2; Part000.title := Some "Rocq";
     Part000.provider := None; Part000.date := Some "2021-01-01";
     Part000.link := None; Part000.image := None |}.

Definition row_b3 : Part000.certificate :=
  {| Part000.id := 3; Part000.title := Some "Undated";
     Part000.provider := None; Part000.date := None;
     Part000.link := None; Part000.image := None |}.

Definition world_b : World Part000.certificate :=
  {| certificates := {| rows := [row_b1; row_b2; row_b3]; next_id := 4 |};
     images := stored; calls := [] |}.

End Sample.

(** * Properties *)

(** ** The statements on a table *)

Section StatementFacts.
Context {Row : Type} (row_id : Row → N).
Implicit Types (l : list Row) (t : Table Row) (r : Row) (i : N).

Lemma filter_id_absent l i :
  (∀ r, r ∈ l → row_id r ≠ i) → filter (λ r, row_id r = i) l = [].
Proof.
  intros Habs. induction l as [|x l IH]; [done|].
  rewrite filter_cons_False.
  - apply IH. intros r Hr. apply Habs. by right.
  - apply Habs. by left.
Qed.

Lemma filter_other_absent l i :
  (∀ r, r ∈ l → row_id r ≠ i) → filter (λ r, row_id r ≠ i) l = l.
Proof.
  intros Habs. induction l as [|x l IH]; [done|].
  rewrite filter_cons_True.
  - f_equal. apply IH. intros r Hr. apply Habs. by right.
  - apply Habs. by left.
Qed.

Lemma update_absent (set : Row → Row) l i :
  (∀ r, r ∈ l → row_id r ≠ i) →
  (λ r, if decide (row_id r = i) then set r else r) <$> l = l.
Proof.
  intros Habs. induction l as [|x l IH]; [done|].
  rewrite fmap_cons. rewrite decide_False.
  - f_equal. apply IH. intros r Hr. apply Habs. by right.
  - apply Habs. by left.
Qed.

(** With distinct identifiers, the rows around a row do not carry its
    identifier. *)
Lemma NoDup_ids_split l1 r l2 :
  NoDup (row_id <$> (l1 ++ r :: l2)) →
  (∀ x, x ∈ l1 → row_id x ≠ row_id r) ∧ (∀ x, x ∈ l2 → row_id x ≠ row_id r).
Proof.
  rewrite fmap_app, fmap_cons. intros Hnd.
  apply NoDup_app in Hnd as (_ & Hl1 & Hnd).
  apply NoDup_cons in Hnd as [Hr _]. split.
  - intros x Hx Heq. apply (Hl1 (row_id r)).
    + rewrite <- Heq. by apply list_elem_of_fmap_2.
    + by left.
  - intros x Hx Heq. apply Hr. rewrite <- Heq. by apply list_elem_of_fmap_2.
Qed.

Lemma filter_id_present l1 r l2 :
  NoDup (row_id <$> (l1 ++ r :: l2)) →
  filter (λ x, row_id x = row_id r) (l1 ++ r :: l2) = [r].
Proof.
  intros [H1 H2]%NoDup_ids_split.
  rewrite filter_app, filter_cons_True by done.
  by rewrite !filter_id_absent.
Qed.

Lemma filter_other_present l1 r l2 :
  NoDup (row_id <$> (l1 ++ r :: l2)) →
  filter (λ x, row_id x ≠ row_id r) (l1 ++ r :: l2) = l1 ++ l2.
Proof.
  intros [H1 H2]%NoDup_ids_split.
  rewrite filter_app, filter_cons_False by (intros H; by apply H).
  by rewrite !filter_other_absent.
Qed.

Lemma update_present (set : Row → Row) l1 r l2 :
  NoDup (row_id <$> (l1 ++ r :: l2)) →
  (λ x, if decide (row_id x = row_id r) then set x else x) <$> (l1 ++ r :: l2)
  = l1 ++ set r :: l2.
Proof.
  intros [H1 H2]%NoDup_ids_split.
  rewrite fmap_app, fmap_cons, decide_True by done.
  by rewrite !update_absent.
Qed.

(** *** The identifiers stay distinct *)

Lemma table_ok_insert (mk : N → Row) t :
  (∀ i, row_id (mk i) = i) →
  table_ok row_id t → table_ok row_id (sql_insert mk t).1.
Proof.
  intros Hmk [Hnd Hlt]. split; simpl.
  - rewrite fmap_app. apply NoDup_app. split_and!; [done| |].
    + intros i Hi [->|[]%elem_of_nil]%elem_of_cons.
      apply list_elem_of_fmap in Hi as (r & Hr & Hin).
      rewrite Forall_forall in Hlt. specialize (Hlt r Hin).
      rewrite Hmk in Hr. lia.
    + apply NoDup_singleton.
  - apply Forall_app. split.
    + eapply Forall_impl; [exact Hlt|]. simpl. intros; lia.
    + apply Forall_singleton. rewrite Hmk. lia.
Qed.

Lemma table_ok_update (set : Row → Row) i t :
  (∀ r, row_id (set r) = row_id r) →
  table_ok row_id t → table_ok row_id (sql_update_by_id row_id set i t).1.
Proof.
  intros Hset [Hnd Hlt].
  assert (∀ r, row_id (if decide (row_id r = i) then set r else r) = row_id r)
    as Hid by (intros r; case_decide; auto).
  split; simpl.
  - rewrite <- list_fmap_compose.
    erewrite list_fmap_ext; [exact Hnd|]. intros _ r _. apply Hid.
  - apply Forall_fmap. eapply Forall_impl; [exact Hlt|].
    intros r Hr. simpl. by rewrite Hid.
Qed.

Lemma table_ok_delete i t :
  table_ok row_id t → table_ok row_id (sql_delete_by_id row_id i t).1.
Proof.
  intros [Hnd Hlt]. split; simpl.
  - eapply sublist_NoDup; [exact Hnd|].
    apply fmap_sublist, sublist_filter.
  - rewrite Forall_forall in Hlt |- *.
    intros r [_ Hr]%list_elem_of_filter. by apply Hlt.
Qed.

(** *** A statement aimed at an identifier *)

Lemma sql_select_absent i t :
  absent row_id i t → sql_select_by_id row_id i t = (t, []).
Proof.
  intros Habs. unfold sql_select_by_id. by rewrite filter_id_absent.
Qed.

Lemma sql_update_absent set i t :
  absent row_id i t → sql_update_by_id row_id set i t = (t, []).
Proof.
  intros Habs. unfold sql_update_by_id.
  rewrite filter_id_absent, update_absent by done. by destruct t.
Qed.

Lemma sql_delete_absent i t :
  absent row_id i t → sql_delete_by_id row_id i t = (t, []).
Proof.
  intros Habs. unfold sql_delete_by_id.
  rewrite filter_id_absent, filter_other_absent by done. by destruct t.
Qed.

Lemma sql_select_present t l1 r l2 :
  table_ok row_id t → rows t = l1 ++ r :: l2 →
  sql_select_by_id row_id (row_id r) t = (t, [r]).
Proof.
  intros [Hnd _] Hrows. unfold sql_select_by_id.
  rewrite Hrows in Hnd |- *. by rewrite filter_id_present.
Qed.

Lemma sql_update_present set t l1 r l2 :
  table_ok row_id t → rows t = l1 ++ r :: l2 →
  sql_update_by_id row_id set (row_id r) t =
    ({| rows := l1 ++ set r :: l2; next_id := next_id t |}, [set r]).
Proof.
  intros [Hnd _] Hrows. unfold sql_update_by_id.
  rewrite Hrows in Hnd |- *.
  by rewrite filter_id_present, update_present.
Qed.

Lemma sql_delete_present t l1 r l2 :
  table_ok row_id t → rows t = l1 ++ r :: l2 →
  sql_delete_by_id row_id (row_id r) t =
    ({| rows := l1 ++ l2; next_id := next_id t |}, [r]).
Proof.
  intros [Hnd _] Hrows. unfold sql_delete_by_id.
  rewrite Hrows in Hnd |- *.
  by rewrite filter_id_present, filter_other_present.
Qed.

(** Once its row is deleted, an identifier matches nothing. *)
Lemma absent_after_delete t l1 r l2 :
  table_ok row_id t → rows t = l1 ++ r :: l2 →
  absent row_id (row_id r) {| rows := l1 ++ l2; next_id := next_id t |}.
Proof.
  intros [Hnd _] Hrows. rewrite Hrows in Hnd.
  apply NoDup_ids_split in Hnd as [H1 H2].
  intros x [Hx|Hx]%elem_of_app; auto.
Qed.

End StatementFacts.

(** ** Running a handler *)

Ltac run_handler :=
  cbv [AppJs.post_certificate AppJs.get_certificates AppJs.get_certificate
       AppJs.put_certificate AppJs.delete_certificate AppJs.get_root
       AppJs.bad_request AppJs.not_found AppJs.handle
       Part000.post_certificate Part000.get_certificates
       Part000.get_certificate Part000.put_certificate
       Part000.delete_certificate Part000.get_root Part000.bad_request
       Part000.not_found Part000.get_certificates_provider
       Part000.get_certificates_oldest Part000.get_certificates_newest
       Part000.handle
       mbind M_bind bind mret M_ret ret throw try_catch
       storage_upload pool_query internal_error].

(** Close a goal that compares two worlds once the handler has run. *)
Ltac same_world :=
  unfold log_call, upload_of, blob_of; simpl; rewrite <- ?app_assoc; done.

(** ** Create *)

(** What [post_certificate] does past its guard, by the answer of the
    object store. *)
Lemma post_upload_error_A env body f e w :
  truthy (AppJs.body_name body) = true →
  upload_error env = Some e →
  AppJs.post_certificate env body (Some f) w =
    (Normal {| status := 500; json := JError (message e) |},
     {| certificates := certificates w; images := images w;
        calls := calls w ++ [upload_of f] |}).
Proof. intros Hn Hu. run_handler. by rewrite Hn, Hu. Qed.

Lemma post_upload_error_B env body f e w :
  truthy (Part000.body_title body) = true →
  upload_error env = Some e →
  Part000.post_certificate env body (Some f) w =
    (Normal {| status := 500; json := JError (message e) |},
     {| certificates := certificates w; images := images w;
        calls := calls w ++ [upload_of f] |}).
Proof. intros Hn Hu. run_handler. by rewrite Hn, Hu. Qed.

Lemma post_insert_error_A env body f e w :
  truthy (AppJs.body_name body) = true →
  upload_error env = None → query_error env = Some e →
  AppJs.post_certificate env body (Some f) w =
    (Normal {| status := 500; json := JError (message e) |},
     {| certificates := certificates w;
        images := <[object_path f := blob_of f]> (images w);
        calls := calls w ++
          [upload_of f;
           Query "INSERT INTO certificates (name, description, image, category, link) VALUES ($1, $2, $3, $4, $5) RETURNING *"] |}).
Proof.
  intros Hn Hu Hq. run_handler. rewrite Hn, Hu. simpl. rewrite Hq. same_world.
Qed.

Lemma post_insert_error_B env body f e w :
  truthy (Part000.body_title body) = true →
  upload_error env = None → query_error env = Some e →
  Part000.post_certificate env body (Some f) w =
    (Normal {| status := 500; json := JError (message e) |},
     {| certificates := certificates w;
        images := <[object_path f := blob_of f]> (images w);
        calls := calls w ++
          [upload_of f;
           Query "INSERT INTO certificates (title, provider, date, link, image) VALUES ($1, $2, $3, $4, $5) RETURNING *"] |}).
Proof.
  intros Hn Hu Hq. run_handler. rewrite Hn, Hu. simpl. rewrite Hq. same_world.
Qed.

Lemma post_created_A env body f w :
  truthy (AppJs.body_name body) = true →
  upload_error env = None → query_error env = None →
  let r :=
    {| AppJs.id := next_id (certificates w);
       AppJs.name := AppJs.body_name body;
       AppJs.description := AppJs.body_description body;
       AppJs.image := Some (public_url env f);
       AppJs.category := AppJs.body_category body;
       AppJs.link := AppJs.body_link body |} in
  AppJs.post_certificate env body (Some f) w =
    (Normal {| status := 200; json := JRow r |},
     {| certificates :=
          {| rows := rows (certificates w) ++ [r];
             next_id := N.succ (next_id (certificates w)) |};
        images := <[object_path f := blob_of f]> (images w);
        calls := calls w ++
          [upload_of f;
           Query "INSERT INTO certificates (name, description, image, category, link) VALUES ($1, $2, $3, $4, $5) RETURNING *"] |}).
Proof.
  intros Hn Hu Hq. run_handler. rewrite Hn, Hu. simpl. rewrite Hq.
  unfold AppJs.insert_certificate, sql_insert. same_world.
Qed.

Lemma post_created_B env body f w :
  truthy (Part000.body_title body) = true →
  upload_error env = None → query_error env = None →
  let r :=
    {| Part000.id := next_id (certificates w);
       Part000.title := Part000.body_title body;
       Part000.provider := Part000.body_provider body;
       Part000.date := Part000.body_date body;
       Part000.link := Part000.body_link body;
       Part000.image := Some (public_url env f) |} in
  Part000.post_certificate env body (Some f) w =
    (Normal {| status := 200; json := JRow r |},
     {| certificates :=
          {| rows := rows (certificates w) ++ [r];
             next_id := N.succ (next_id (certificates w)) |};
        images := <[object_path f := blob_of f]> (images w);
        calls := calls w ++
          [upload_of f;
           Query "INSERT INTO certificates (title, provider, date, link, image) VALUES ($1, $2, $3, $4, $5) RETURNING *"] |}).
Proof.
  intros Hn Hu Hq. run_handler. rewrite Hn, Hu. simpl. rewrite Hq.
  unfold Part000.insert_certificate, sql_insert. same_world.
Qed.

Lemma post_rejected_A env body file w :
  truthy (AppJs.body_name body) = false ∨ file = None →
  AppJs.post_certificate env body file w =
    (Normal {| status := 400; json := JError "Name and image are required" |},
     w).
Proof.
  intros [Hn | ->]; run_handler; [|done].
  destruct file; [by rewrite Hn | done].
Qed.

Lemma post_rejected_B env body file w :
  truthy (Part000.body_title body) = false ∨ file = None →
  Part000.post_certificate env body file w =
    (Normal {| status := 400; json := JError "Title and image are required" |},
     w).
Proof.
  intros [Hn | ->]; run_handler; [|done].
  destruct file; [by rewrite Hn | done].
Qed.

(** Past the guard and a successful upload, the statement is issued with
    the blob already stored and the upload already in the list of calls. *)
Lemma post_upload_first_A env body f w :
  truthy (AppJs.body_name body) = true →
  upload_error env = None →
  ∃ res t text,
    AppJs.post_certificate env body (Some f) w =
      (Normal res,
       {| certificates := t;
          images := <[object_path f := blob_of f]> (images w);
          calls := calls w ++ [upload_of f; Query text] |}).
Proof.
  intros Hn Hu. destruct (query_error env) as [e|] eqn:Hq.
  - rewrite (post_insert_error_A _ _ _ e) by done. eauto.
  - rewrite post_created_A by done. eauto.
Qed.

Lemma post_upload_first_B env body f w :
  truthy (Part000.body_title body) = true →
  upload_error env = None →
  ∃ res t text,
    Part000.post_certificate env body (Some f) w =
      (Normal res,
       {| certificates := t;
          images := <[object_path f := blob_of f]> (images w);
          calls := calls w ++ [upload_of f; Query text] |}).
Proof.
  intros Hn Hu. destruct (query_error env) as [e|] eqn:Hq.
  - rewrite (post_insert_error_B _ _ _ e) by done. eauto.
  - rewrite post_created_B by done. eauto.
Qed.

(** C1: in Create, when the upload reports an error the answer is a 500
    carrying the error's message, the table and the bucket are what they
    were, and the upload is the only call made: the insert is not issued.
    When the upload succeeds, the statement is issued after it, with the
    blob already in the bucket.  Both applications. *)
Theorem create_upload_error env f
    (ba : AppJs.Body) (wa : World AppJs.certificate)
    (bb : Part000.Body) (wb : World Part000.certificate) :
  truthy (AppJs.body_name ba) = true →
  truthy (Part000.body_title bb) = true →
  (∀ e, upload_error env = Some e →
     AppJs.post_certificate env ba (Some f) wa =
       (Normal {| status := 500; json := JError (message e) |},
        {| certificates := certificates wa; images := images wa;
           calls := calls wa ++ [upload_of f] |})
     ∧ Part000.post_certificate env bb (Some f) wb =
       (Normal {| status := 500; json := JError (message e) |},
        {| certificates := certificates wb; images := images wb;
           calls := calls wb ++ [upload_of f] |}))
  ∧ (upload_error env = None →
     (∃ res t text,
        AppJs.post_certificate env ba (Some f) wa =
          (Normal res,
           {| certificates := t;
              images := <[object_path f := blob_of f]> (images wa);
              calls := calls wa ++ [upload_of f; Query text] |}))
     ∧ (∃ res t text,
        Part000.post_certificate env bb (Some f) wb =
          (Normal res,
           {| certificates := t;
              images := <[object_path f := blob_of f]> (images wb);
              calls := calls wb ++ [upload_of f; Query text] |}))).
Proof.
  intros Ha Hb. split.
  - intros e He. split.
    + by apply post_upload_error_A.
    + by apply post_upload_error_B.
  - intros Hu. split.
    + by apply post_upload_first_A.
    + by apply post_upload_first_B.
Qed.

Lemma create_upload_error_witness :
  AppJs.post_certificate Sample.env_upload_fails Sample.body_a
      (Some Sample.aws_png) Sample.world_a =
    (Normal {| status := 500; json := JError "The resource already exists" |},
     {| certificates := certificates Sample.world_a;
        images := Sample.stored;
        calls := [upload_of Sample.aws_png] |})
  ∧ Part000.post_certificate Sample.env_upload_fails Sample.body_b
      (Some Sample.aws_png) Sample.world_b =
    (Normal {| status := 500; json := JError "The resource already exists" |},
     {| certificates := certificates Sample.world_b;
        images := Sample.stored;
        calls := [upload_of Sample.aws_png] |}).
Proof.
  exact (proj1 (create_upload_error Sample.env_upload_fails Sample.aws_png
                  Sample.body_a Sample.world_a Sample.body_b Sample.world_b
                  eq_refl eq_refl) _ eq_refl).
Defined.

(** C3: a creation request with a name (a title) and a file, whose upload
    and insert succeed, appends a row whose [image] is the base URL, then
    [/storage/v1/object/public/images/public/], then the original file
    name; that row is the body of the 200 answer.  The upload it has made
    is the call with the path [public/<originalname>], the file's bytes
    and its content type, followed by the insert.  Both applications. *)
Theorem create_image_url env f
    (ba : AppJs.Body) (wa : World AppJs.certificate)
    (bb : Part000.Body) (wb : World Part000.certificate) :
  truthy (AppJs.body_name ba) = true →
  truthy (Part000.body_title bb) = true →
  upload_error env = None → query_error env = None →
  let url :=
    supabaseUrl env +:+ "/storage/v1/object/public/images/public/" +:+
    originalname f in
  let blob := {| content := buffer f; contentType := mimetype f |} in
  let ra :=
    {| AppJs.id := next_id (certificates wa);
       AppJs.name := AppJs.body_name ba;
       AppJs.description := AppJs.body_description ba;
       AppJs.image := Some url;
       AppJs.category := AppJs.body_category ba;
       AppJs.link := AppJs.body_link ba |} in
  let rb :=
    {| Part000.id := next_id (certificates wb);
       Part000.title := Part000.body_title bb;
       Part000.provider := Part000.body_provider bb;
       Part000.date := Part000.body_date bb;
       Part000.link := Part000.body_link bb;
       Part000.image := Some url |} in
  (∃ wa' text,
     AppJs.post_certificate env ba (Some f) wa =
       (Normal {| status := 200; json := JRow ra |}, wa')
     ∧ rows (certificates wa') = rows (certificates wa) ++ [ra]
     ∧ calls wa' =
         calls wa ++ [Upload ("public/" +:+ originalname f) blob; Query text])
  ∧ (∃ wb' text,
     Part000.post_certificate env bb (Some f) wb =
       (Normal {| status := 200; json := JRow rb |}, wb')
     ∧ rows (certificates wb') = rows (certificates wb) ++ [rb]
     ∧ calls wb' =
         calls wb ++ [Upload ("public/" +:+ originalname f) blob; Query text]).
Proof.
  intros Ha Hb Hu Hq url blob ra rb. split.
  - eexists _, _. split; [by apply post_created_A|]. by split.
  - eexists _, _. split; [by apply post_created_B|]. by split.
Qed.

Lemma create_image_url_witness :
  ∃ wa' text,
    AppJs.post_certificate Sample.env_ok Sample.body_a (Some Sample.aws_png)
        Sample.world_a =
      (Normal
         {| status := 200;
            json := JRow
              {| AppJs.id := 3; AppJs.name := Some "AWS Cert";
                 AppJs.description := None;
                 AppJs.image :=
                   Some "https://store.example/storage/v1/object/public/images/public/aws.png";
                 AppJs.category := Some "cloud"; AppJs.link := None |} |},
       wa')
    ∧ calls wa' =
        [Upload "public/aws.png" (blob_of Sample.aws_png); Query text].
Proof.
  destruct (create_image_url Sample.env_ok Sample.aws_png
              Sample.body_a Sample.world_a Sample.body_b Sample.world_b
              eq_refl eq_refl eq_refl eq_refl)
    as [(wa' & text & Hres & _ & Hcalls) _].
  exists wa', text. split; [exact Hres | exact Hcalls].
Defined.

(** C4: a creation request without a truthy name (title), or without a
    file, is answered 400 and leaves the whole state as it was: nothing is
    uploaded, nothing is written and no external call is made.  Both
    applications. *)
Theorem create_validation env (file : option File)
    (ba : AppJs.Body) (wa : World AppJs.certificate)
    (bb : Part000.Body) (wb : World Part000.certificate) :
  (truthy (AppJs.body_name ba) = false ∧
   truthy (Part000.body_title bb) = false) ∨ file = None →
  AppJs.post_certificate env ba file wa =
    (Normal {| status := 400; json := JError "Name and image are required" |},
     wa)
  ∧ Part000.post_certificate env bb file wb =
    (Normal {| status := 400; json := JError "Title and image are required" |},
     wb).
Proof.
  intros H. split.
  - apply post_rejected_A. tauto.
  - apply post_rejected_B. tauto.
Qed.

Lemma create_validation_witness :
  (AppJs.post_certificate Sample.env_ok Sample.body_a_unnamed
      (Some Sample.aws_png) Sample.world_a).2 = Sample.world_a
  ∧ (Part000.post_certificate Sample.env_ok Sample.body_b_untitled
      (Some Sample.aws_png) Sample.world_b).2 = Sample.world_b.
Proof.
  destruct (create_validation Sample.env_ok (Some Sample.aws_png)
              Sample.body_a_unnamed Sample.world_a
              Sample.body_b_untitled Sample.world_b
              (or_introl (conj eq_refl eq_refl))) as [-> ->].
  split; reflexivity.
Defined.

(** ** Get, Update and Delete *)

(** Bring the statement of a handler that has reached [pool_query] face to
    face with the table it runs on, without unfolding the statement. *)
Ltac at_statement :=
  unfold log_call; cbn [certificates images calls];
  try unfold AppJs.update_certificate; try unfold Part000.update_certificate.

(** An identifier that matches no row. *)

Lemma get_absent_A env i w :
  absent AppJs.id i (certificates w) → query_error env = None →
  AppJs.get_certificate env i w =
    (Normal {| status := 404; json := JError "Certificate not found" |},
     {| certificates := certificates w; images := images w;
        calls := calls w ++ [Query "SELECT * FROM certificates WHERE id = $1"] |}).
Proof.
  intros Habs Hq. run_handler. rewrite Hq. at_statement.
  by rewrite sql_select_absent.
Qed.

Lemma get_absent_B env i w :
  absent Part000.id i (certificates w) → query_error env = None →
  Part000.get_certificate env i w =
    (Normal {| status := 404; json := JError "Certificate not found" |},
     {| certificates := certificates w; images := images w;
        calls := calls w ++ [Query "SELECT * FROM certificates WHERE id = $1"] |}).
Proof.
  intros Habs Hq. run_handler. rewrite Hq. at_statement.
  by rewrite sql_select_absent.
Qed.

Lemma delete_absent_A env i w :
  absent AppJs.id i (certificates w) → query_error env = None →
  AppJs.delete_certificate env i w =
    (Normal {| status := 404; json := JError "Certificate not found" |},
     {| certificates := certificates w; images := images w;
        calls := calls w ++
          [Query "DELETE FROM certificates WHERE id = $1 RETURNING *"] |}).
Proof.
  intros Habs Hq. run_handler. rewrite Hq. at_statement.
  by rewrite sql_delete_absent.
Qed.

Lemma delete_absent_B env i w :
  absent Part000.id i (certificates w) → query_error env = None →
  Part000.delete_certificate env i w =
    (Normal {| status := 404; json := JError "Certificate not found" |},
     {| certificates := certificates w; images := images w;
        calls := calls w ++
          [Query "DELETE FROM certificates WHERE id = $1 RETURNING *"] |}).
Proof.
  intros Habs Hq. run_handler. rewrite Hq. at_statement.
  by rewrite sql_delete_absent.
Qed.

Lemma put_absent_nofile_A env i body w :
  absent AppJs.id i (certificates w) → query_error env = None →
  AppJs.put_certificate env i body None w =
    (Normal {| status := 404; json := JError "Certificate not found" |},
     {| certificates := certificates w; images := images w;
        calls := calls w ++
          [Query "UPDATE certificates SET name = $1, description = $2, image = COALESCE($3, image), category = $4, link = $5 WHERE id = $6 RETURNING *"] |}).
Proof.
  intros Habs Hq. run_handler. rewrite Hq. at_statement.
  by rewrite sql_update_absent.
Qed.

Lemma put_absent_nofile_B env i body w :
  absent Part000.id i (certificates w) → query_error env = None →
  Part000.put_certificate env i body None w =
    (Normal {| status := 404; json := JError "Certificate not found" |},
     {| certificates := certificates w; images := images w;
        calls := calls w ++
          [Query "UPDATE certificates SET title = $1, provider = $2, date = $3, link = $4, image = COALESCE($5, image) WHERE id = $6 RETURNING *"] |}).
Proof.
  intros Habs Hq. run_handler. rewrite Hq. at_statement.
  by rewrite sql_update_absent.
Qed.

Lemma put_absent_file_A env i body f w :
  absent AppJs.id i (certificates w) →
  upload_error env = None → query_error env = None →
  AppJs.put_certificate env i body (Some f) w =
    (Normal {| status := 404; json := JError "Certificate not found" |},
     {| certificates := certificates w;
        images := <[object_path f := blob_of f]> (images w);
        calls := calls w ++
          [upload_of f;
           Query "UPDATE certificates SET name = $1, description = $2, image = COALESCE($3, image), category = $4, link = $5 WHERE id = $6 RETURNING *"] |}).
Proof.
  intros Habs Hu Hq. run_handler. rewrite Hu, Hq. at_statement.
  rewrite sql_update_absent by done. same_world.
Qed.

Lemma put_absent_file_B env i body f w :
  absent Part000.id i (certificates w) →
  upload_error env = None → query_error env = None →
  Part000.put_certificate env i body (Some f) w =
    (Normal {| status := 404; json := JError "Certificate not found" |},
     {| certificates := certificates w;
        images := <[object_path f := blob_of f]> (images w);
        calls := calls w ++
          [upload_of f;
           Query "UPDATE certificates SET title = $1, provider = $2, date = $3, link = $4, image = COALESCE($5, image) WHERE id = $6 RETURNING *"] |}).
Proof.
  intros Habs Hu Hq. run_handler. rewrite Hu, Hq. at_statement.
  rewrite sql_update_absent by done. same_world.
Qed.

(** Whatever the stores answer, a request aimed at an absent identifier
    leaves the table as it was. *)
Lemma absent_table_unchanged_A env i body file w :
  absent AppJs.id i (certificates w) →
  certificates (AppJs.get_certificate env i w).2 = certificates w
  ∧ certificates (AppJs.put_certificate env i body file w).2 = certificates w
  ∧ certificates (AppJs.delete_certificate env i w).2 = certificates w.
Proof.
  intros Habs. split_and!.
  - run_handler. destruct (query_error env); [done|].
    at_statement. by rewrite sql_select_absent.
  - run_handler.
    destruct file, (upload_error env), (query_error env); try done;
      at_statement; by rewrite sql_update_absent.
  - run_handler. destruct (query_error env); [done|].
    at_statement. by rewrite sql_delete_absent.
Qed.

Lemma absent_table_unchanged_B env i body file w :
  absent Part000.id i (certificates w) →
  certificates (Part000.get_certificate env i w).2 = certificates w
  ∧ certificates (Part000.put_certificate env i body file w).2 = certificates w
  ∧ certificates (Part000.delete_certificate env i w).2 = certificates w.
Proof.
  intros Habs. split_and!.
  - run_handler. destruct (query_error env); [done|].
    at_statement. by rewrite sql_select_absent.
  - run_handler.
    destruct file, (upload_error env), (query_error env); try done;
      at_statement; by rewrite sql_update_absent.
  - run_handler. destruct (query_error env); [done|].
    at_statement. by rewrite sql_delete_absent.
Qed.

(** An identifier that matches a row of a table whose identifiers are
    distinct. *)

Lemma get_found_A env w l1 r l2 :
  table_ok AppJs.id (certificates w) →
  rows (certificates w) = l1 ++ r :: l2 →
  query_error env = None →
  AppJs.get_certificate env (AppJs.id r) w =
    (Normal {| status := 200; json := JRow r |},
     {| certificates := certificates w; images := images w;
        calls := calls w ++ [Query "SELECT * FROM certificates WHERE id = $1"] |}).
Proof.
  intros Hok Hrows Hq. run_handler. rewrite Hq. at_statement.
  by rewrite (sql_select_present _ _ l1 r l2).
Qed.

Lemma get_found_B env w l1 r l2 :
  table_ok Part000.id (certificates w) →
  rows (certificates w) = l1 ++ r :: l2 →
  query_error env = None →
  Part000.get_certificate env (Part000.id r) w =
    (Normal {| status := 200; json := JRow r |},
     {| certificates := certificates w; images := images w;
        calls := calls w ++ [Query "SELECT * FROM certificates WHERE id = $1"] |}).
Proof.
  intros Hok Hrows Hq. run_handler. rewrite Hq. at_statement.
  by rewrite (sql_select_present _ _ l1 r l2).
Qed.

Lemma delete_found_A env w l1 r l2 :
  table_ok AppJs.id (certificates w) →
  rows (certificates w) = l1 ++ r :: l2 →
  query_error env = None →
  AppJs.delete_certificate env (AppJs.id r) w =
    (Normal {| status := 200; json := JRow r |},
     {| certificates :=
          {| rows := l1 ++ l2; next_id := next_id (certificates w) |};
        images := images w;
        calls := calls w ++
          [Query "DELETE FROM certificates WHERE id = $1 RETURNING *"] |}).
Proof.
  intros Hok Hrows Hq. run_handler. rewrite Hq. at_statement.
  by rewrite (sql_delete_present _ _ l1 r l2).
Qed.

Lemma delete_found_B env w l1 r l2 :
  table_ok Part000.id (certificates w) →
  rows (certificates w) = l1 ++ r :: l2 →
  query_error env = None →
  Part000.delete_certificate env (Part000.id r) w =
    (Normal {| status := 200; json := JRow r |},
     {| certificates :=
          {| rows := l1 ++ l2; next_id := next_id (certificates w) |};
        images := images w;
        calls := calls w ++
          [Query "DELETE FROM certificates WHERE id = $1 RETURNING *"] |}).
Proof.
  intros Hok Hrows Hq. run_handler. rewrite Hq. at_statement.
  by rewrite (sql_delete_present _ _ l1 r l2).
Qed.

Lemma put_found_A env body file w l1 r l2 :
  table_ok AppJs.id (certificates w) →
  rows (certificates w) = l1 ++ r :: l2 →
  file = None ∨ upload_error env = None →
  query_error env = None →
  let r' :=
    AppJs.set_certificate (AppJs.body_name body) (AppJs.body_description body)
      (public_url env <$> file) (AppJs.body_category body)
      (AppJs.body_link body) r in
  AppJs.put_certificate env (AppJs.id r) body file w =
    (Normal {| status := 200; json := JRow r' |},
     {| certificates :=
          {| rows := l1 ++ r' :: l2; next_id := next_id (certificates w) |};
        images :=
          match file with
          | Some f => <[object_path f := blob_of f]> (images w)
          | None => images w
          end;
        calls := calls w ++
          match file with Some f => [upload_of f] | None => [] end ++
          [Query "UPDATE certificates SET name = $1, description = $2, image = COALESCE($3, image), category = $4, link = $5 WHERE id = $6 RETURNING *"] |}).
Proof.
  intros Hok Hrows Hfile Hq r'. subst r'. run_handler.
  destruct file as [f|].
  - destruct Hfile as [|Hu]; [done|]. rewrite Hu, Hq. at_statement.
    rewrite (sql_update_present _ _ _ l1 r l2) by done. same_world.
  - rewrite Hq. at_statement.
    rewrite (sql_update_present _ _ _ l1 r l2) by done. same_world.
Qed.

Lemma put_found_B env body file w l1 r l2 :
  table_ok Part000.id (certificates w) →
  rows (certificates w) = l1 ++ r :: l2 →
  file = None ∨ upload_error env = None →
  query_error env = None →
  let r' :=
    Part000.set_certificate (Part000.body_title body)
      (Part000.body_provider body) (Part000.body_date body)
      (Part000.body_link body) (public_url env <$> file) r in
  Part000.put_certificate env (Part000.id r) body file w =
    (Normal {| status := 200; json := JRow r' |},
     {| certificates :=
          {| rows := l1 ++ r' :: l2; next_id := next_id (certificates w) |};
        images :=
          match file with
          | Some f => <[object_path f := blob_of f]> (images w)
          | None => images w
          end;
        calls := calls w ++
          match file with Some f => [upload_of f] | None => [] end ++
          [Query "UPDATE certificates SET title = $1, provider = $2, date = $3, link = $4, image = COALESCE($5, image) WHERE id = $6 RETURNING *"] |}).
Proof.
  intros Hok Hrows Hfile Hq r'. subst r'. run_handler.
  destruct file as [f|].
  - destruct Hfile as [|Hu]; [done|]. rewrite Hu, Hq. at_statement.
    rewrite (sql_update_present _ _ _ l1 r l2) by done. same_world.
  - rewrite Hq. at_statement.
    rewrite (sql_update_present _ _ _ l1 r l2) by done. same_world.
Qed.

(** ** What a request can do to the bucket and to the identifiers *)

(** A request leaves the bucket as it was or stores one object in it. *)
Lemma handle_images_A env req w :
  images (AppJs.handle env req w).2 = images w
  ∨ ∃ f, images (AppJs.handle env req w).2
         = <[object_path f := blob_of f]> (images w).
Proof.
  destruct req as [|body [f|]| |i|i body [f|]|i]; run_handler;
    repeat case_match; simplify_eq/=; eauto.
Qed.

Lemma handle_images_B env req w :
  images (Part000.handle env req w).2 = images w
  ∨ ∃ f, images (Part000.handle env req w).2
         = <[object_path f := blob_of f]> (images w).
Proof.
  destruct req as [|body [f|]| |i|i body [f|]|i|p| |]; run_handler;
    repeat case_match; simplify_eq/=; eauto.
Qed.

Lemma serve_images_A reqs w :
  dom (images w) ⊆ dom (images (AppJs.serve reqs w)).
Proof.
  revert w. induction reqs as [|[env req] reqs IH]; intros w; simpl; [done|].
  etrans; [|apply IH].
  destruct (handle_images_A env req w) as [-> | [f ->]]; [done|].
  rewrite dom_insert. set_solver.
Qed.

Lemma serve_images_B reqs w :
  dom (images w) ⊆ dom (images (Part000.serve reqs w)).
Proof.
  revert w. induction reqs as [|[env req] reqs IH]; intros w; simpl; [done|].
  etrans; [|apply IH].
  destruct (handle_images_B env req w) as [-> | [f ->]]; [done|].
  rewrite dom_insert. set_solver.
Qed.

(** The table a statement leaves, from the equation that names it. *)
Ltac table_of_statement :=
  match goal with
  | H : _ = (?t, _) |- _ =>
      apply (f_equal fst) in H; simpl in H; rewrite <- H; clear H
  end.

(** Every request keeps the identifiers distinct and below the sequence. *)
Lemma handle_table_ok_A env req w :
  table_ok AppJs.id (certificates w) →
  table_ok AppJs.id (certificates (AppJs.handle env req w).2).
Proof.
  intros Hok.
  assert (Hins : ∀ a b c d e, table_ok AppJs.id
            (AppJs.insert_certificate a b c d e (certificates w)).1)
    by (intros; by apply table_ok_insert).
  assert (Hupd : ∀ a b c d e i, table_ok AppJs.id
            (AppJs.update_certificate a b c d e i (certificates w)).1)
    by (intros; by apply table_ok_update).
  assert (Hdel : ∀ i, table_ok AppJs.id
            (sql_delete_by_id AppJs.id i (certificates w)).1)
    by (intros; by apply table_ok_delete).
  destruct req as [|body [f|]| |i|i body [f|]|i]; run_handler;
    repeat case_match; simplify_eq/=; try done;
    table_of_statement; first [apply Hins | apply Hupd | apply Hdel | done].
Qed.

Lemma handle_table_ok_B env req w :
  table_ok Part000.id (certificates w) →
  table_ok Part000.id (certificates (Part000.handle env req w).2).
Proof.
  intros Hok.
  assert (Hins : ∀ a b c d e, table_ok Part000.id
            (Part000.insert_certificate a b c d e (certificates w)).1)
    by (intros; by apply table_ok_insert).
  assert (Hupd : ∀ a b c d e i, table_ok Part000.id
            (Part000.update_certificate a b c d e i (certificates w)).1)
    by (intros; by apply table_ok_update).
  assert (Hdel : ∀ i, table_ok Part000.id
            (sql_delete_by_id Part000.id i (certificates w)).1)
    by (intros; by apply table_ok_delete).
  destruct req as [|body [f|]| |i|i body [f|]|i|p| |]; run_handler;
    repeat case_match; simplify_eq/=; try done;
    table_of_statement; first [apply Hins | apply Hupd | apply Hdel | done].
Qed.

(** The empty table satisfies the invariant, so every table the server
    reaches does. *)
Lemma serve_table_ok_A reqs w :
  table_ok AppJs.id (certificates w) →
  table_ok AppJs.id (certificates (AppJs.serve reqs w)).
Proof.
  revert w. induction reqs as [|[env req] reqs IH]; intros w Hok; simpl;
    [done|]. by apply IH, handle_table_ok_A.
Qed.

Lemma serve_table_ok_B reqs w :
  table_ok Part000.id (certificates w) →
  table_ok Part000.id (certificates (Part000.serve reqs w)).
Proof.
  revert w. induction reqs as [|[env req] reqs IH]; intros w Hok; simpl;
    [done|]. by apply IH, handle_table_ok_B.
Qed.

(** ** The order of the listings *)

Global Instance date_le_total : Total Part000.date_le.
Proof.
  intros [x|] [y|]; simpl; auto. destruct (total String.le x y); auto.
Qed.

Global Instance date_le_trans : Transitive Part000.date_le.
Proof.
  intros [x|] [y|] [z|]; simpl; try done. apply (transitivity (R := String.le)).
Qed.

Global Instance date_asc_total : Total Part000.date_asc.
Proof. intros r1 r2. apply date_le_total. Qed.

Global Instance date_asc_trans : Transitive Part000.date_asc.
Proof. intros r1 r2 r3. apply date_le_trans. Qed.

Global Instance date_desc_total : Total Part000.date_desc.
Proof. intros r1 r2. apply date_le_total. Qed.

Global Instance date_desc_trans : Transitive Part000.date_desc.
Proof. intros r1 r2 r3 H12 H23. exact (date_le_trans _ _ _ H23 H12). Qed.

(** ** The claims of the specification *)

(** C2: no request removes an object from the bucket.  Over any run of
    requests, in any environments, every path that holds an object at the
    start still holds one at the end (an upload under the same path may
    replace its bytes, nothing takes the path away); Delete leaves the
    bucket exactly as it was; and a Create whose insert fails after a
    successful upload answers 500 with the table untouched and the uploaded
    object in the bucket. *)
Theorem blobs_never_removed reqs (w : World AppJs.certificate) :
  dom (images w) ⊆ dom (images (AppJs.serve reqs w))
  ∧ (∀ env i, images (AppJs.delete_certificate env i w).2 = images w)
  ∧ (∀ env body f e,
       truthy (AppJs.body_name body) = true →
       upload_error env = None → query_error env = Some e →
       ∃ w',
         AppJs.post_certificate env body (Some f) w =
           (Normal {| status := 500; json := JError (message e) |}, w')
         ∧ certificates w' = certificates w
         ∧ images w' !! ("public/" +:+ originalname f) =
             Some {| content := buffer f; contentType := mimetype f |}).
Proof.
  split_and!.
  - apply serve_images_A.
  - intros env i. run_handler. by repeat case_match; simplify_eq/=.
  - intros env body f e Hn Hu Hq. eexists.
    split; [by apply post_insert_error_A|]. simpl.
    split; [done|]. apply lookup_insert_eq.
Qed.

Lemma blobs_never_removed_witness :
  "public/gcp.png" ∈ dom (images (AppJs.serve
      [(Sample.env_query_fails,
        AppJs.PostCertificate Sample.body_a (Some Sample.aws_png));
       (Sample.env_ok, AppJs.DeleteCertificate 1)]
      Sample.world_a)).
Proof.
  apply (proj1 (blobs_never_removed _ Sample.world_a)).
  apply elem_of_dom. exists (blob_of Sample.gcp_png). reflexivity.
Defined.

(** A run on the sample state: a Create whose insert fails, then the
    Delete of row 1.  The table loses row 1 and gains nothing; the bucket
    keeps the object row 1 referred to and the object of the failed
    Create. *)
Example orphans_sample :
  let w := AppJs.serve
      [(Sample.env_query_fails,
        AppJs.PostCertificate Sample.body_a (Some Sample.aws_png));
       (Sample.env_ok, AppJs.DeleteCertificate 1)]
      Sample.world_a in
  rows (certificates w) = [Sample.row_a2]
  ∧ images w !! "public/gcp.png" = Some (blob_of Sample.gcp_png)
  ∧ images w !! "public/aws.png" = Some (blob_of Sample.aws_png).
Proof. vm_compute. done. Qed.

(** The same for [Part000]. *)
Lemma blobs_never_removed_part000 reqs (w : World Part000.certificate) :
  dom (images w) ⊆ dom (images (Part000.serve reqs w))
  ∧ (∀ env i, images (Part000.delete_certificate env i w).2 = images w)
  ∧ (∀ env body f e,
       truthy (Part000.body_title body) = true →
       upload_error env = None → query_error env = Some e →
       ∃ w',
         Part000.post_certificate env body (Some f) w =
           (Normal {| status := 500; json := JError (message e) |}, w')
         ∧ certificates w' = certificates w
         ∧ images w' !! ("public/" +:+ originalname f) =
             Some {| content := buffer f; contentType := mimetype f |}).
Proof.
  split_and!.
  - apply serve_images_B.
  - intros env i. run_handler. by repeat case_match; simplify_eq/=.
  - intros env body f e Hn Hu Hq. eexists.
    split; [by apply post_insert_error_B|]. simpl.
    split; [done|]. apply lookup_insert_eq.
Qed.

(** The sample tables satisfy the invariant. *)
Lemma world_a_ok : table_ok AppJs.id (certificates Sample.world_a).
Proof.
  split; simpl.
  - apply (bool_decide_unpack _). by vm_compute.
  - repeat constructor.
Qed.

Lemma world_b_ok : table_ok Part000.id (certificates Sample.world_b).
Proof.
  split; simpl.
  - apply (bool_decide_unpack _). by vm_compute.
  - repeat constructor.
Qed.

(** The rows of a table, taken up to their order. *)
Section Replace.
Context {Row : Type}.

(** A list that is, up to order, [r] and [rest], cut at [r]. *)
Lemma Permutation_cut (l rest : list Row) r :
  l ≡ₚ r :: rest → ∃ l1 l2, l = l1 ++ r :: l2 ∧ l1 ++ l2 ≡ₚ rest.
Proof.
  intros Hp.
  assert (r ∈ l) as (l1 & l2 & ->)%list_elem_of_split
    by (rewrite Hp; by left).
  exists l1, l2. split; [done|].
  rewrite <- Permutation_middle in Hp. by apply (inj (cons r)) in Hp.
Qed.

End Replace.

(** C5: an Update of an existing row whose calls succeed answers 200 with
    the row as written, and the table afterwards holds that row in place
    of the old one and otherwise the rows it held (the order of the rows
    is left open).  The row's [image] is the old value when no file came
    with the request, and the URL built from the new file otherwise.  Both
    applications. *)
Theorem update_image env (file : option File)
    (ba : AppJs.Body) (wa : World AppJs.certificate) ra resta
    (bb : Part000.Body) (wb : World Part000.certificate) rb restb :
  table_ok AppJs.id (certificates wa) →
  rows (certificates wa) ≡ₚ ra :: resta →
  table_ok Part000.id (certificates wb) →
  rows (certificates wb) ≡ₚ rb :: restb →
  file = None ∨ upload_error env = None →
  query_error env = None →
  (∃ ra' wa',
     AppJs.put_certificate env (AppJs.id ra) ba file wa =
       (Normal {| status := 200; json := JRow ra' |}, wa')
     ∧ rows (certificates wa') ≡ₚ ra' :: resta
     ∧ AppJs.id ra' = AppJs.id ra
     ∧ AppJs.image ra' =
         match file with
         | Some f =>
             Some (supabaseUrl env +:+
                   "/storage/v1/object/public/images/public/" +:+
                   originalname f)
         | None => AppJs.image ra
         end)
  ∧ (∃ rb' wb',
     Part000.put_certificate env (Part000.id rb) bb file wb =
       (Normal {| status := 200; json := JRow rb' |}, wb')
     ∧ rows (certificates wb') ≡ₚ rb' :: restb
     ∧ Part000.id rb' = Part000.id rb
     ∧ Part000.image rb' =
         match file with
         | Some f =>
             Some (supabaseUrl env +:+
                   "/storage/v1/object/public/images/public/" +:+
                   originalname f)
         | None => Part000.image rb
         end).
Proof.
  intros Hoka (la1 & la2 & Hra & Hpa)%Permutation_cut
         Hokb (lb1 & lb2 & Hrb & Hpb)%Permutation_cut Hfile Hq. split.
  - eexists _, _. split; [by apply (put_found_A _ _ _ _ la1 ra la2)|].
    cbn [certificates rows]. split_and!.
    + by rewrite <- Permutation_middle, Hpa.
    + done.
    + by destruct file.
  - eexists _, _. split; [by apply (put_found_B _ _ _ _ lb1 rb lb2)|].
    cbn [certificates rows]. split_and!.
    + by rewrite <- Permutation_middle, Hpb.
    + done.
    + by destruct file.
Qed.

Lemma update_image_witness :
  (∃ ra' wa',
     AppJs.put_certificate Sample.env_ok 1 Sample.body_a None Sample.world_a =
       (Normal {| status := 200; json := JRow ra' |}, wa')
     ∧ rows (certificates wa') ≡ₚ [ra'; Sample.row_a2]
     ∧ AppJs.image ra' = AppJs.image Sample.row_a1)
  ∧ (∃ rb' wb',
     Part000.put_certificate Sample.env_ok 2 Sample.body_b None
         Sample.world_b =
       (Normal {| status := 200; json := JRow rb' |}, wb')
     ∧ rows (certificates wb') ≡ₚ [rb'; Sample.row_b1; Sample.row_b3]
     ∧ Part000.image rb' = Part000.image Sample.row_b2).
Proof.
  destruct (update_image Sample.env_ok None
              Sample.body_a Sample.world_a Sample.row_a1 [Sample.row_a2]
              Sample.body_b Sample.world_b Sample.row_b2
              [Sample.row_b1; Sample.row_b3]
              world_a_ok (reflexivity _) world_b_ok (perm_swap _ _ _)
              (or_introl eq_refl) eq_refl)
    as [(ra' & wa' & Ha & Hpa & _ & Hia) (rb' & wb' & Hb & Hpb & _ & Hib)].
  split; [exists ra', wa' | exists rb', wb']; split_and!; assumption.
Defined.

(** C6: an Update of an existing row whose calls succeed writes every
    column other than [id] and [image] from the request: each holds
    exactly what the body carried, NULL for a field the body did not
    carry, whatever the row held before; the table afterwards holds that
    row in place of the old one and otherwise the rows it held (the order
    of the rows is left open).  Both applications. *)
Theorem update_overwrites_metadata env (file : option File)
    (ba : AppJs.Body) (wa : World AppJs.certificate) ra resta
    (bb : Part000.Body) (wb : World Part000.certificate) rb restb :
  table_ok AppJs.id (certificates wa) →
  rows (certificates wa) ≡ₚ ra :: resta →
  table_ok Part000.id (certificates wb) →
  rows (certificates wb) ≡ₚ rb :: restb →
  file = None ∨ upload_error env = None →
  query_error env = None →
  (∃ ra' wa',
     AppJs.put_certificate env (AppJs.id ra) ba file wa =
       (Normal {| status := 200; json := JRow ra' |}, wa')
     ∧ rows (certificates wa') ≡ₚ ra' :: resta
     ∧ AppJs.id ra' = AppJs.id ra
     ∧ AppJs.name ra' = AppJs.body_name ba
     ∧ AppJs.description ra' = AppJs.body_description ba
     ∧ AppJs.category ra' = AppJs.body_category ba
     ∧ AppJs.link ra' = AppJs.body_link ba)
  ∧ (∃ rb' wb',
     Part000.put_certificate env (Part000.id rb) bb file wb =
       (Normal {| status := 200; json := JRow rb' |}, wb')
     ∧ rows (certificates wb') ≡ₚ rb' :: restb
     ∧ Part000.id rb' = Part000.id rb
     ∧ Part000.title rb' = Part000.body_title bb
     ∧ Part000.provider rb' = Part000.body_provider bb
     ∧ Part000.date rb' = Part000.body_date bb
     ∧ Part000.link rb' = Part000.body_link bb).
Proof.
  intros Hoka (la1 & la2 & Hra & Hpa)%Permutation_cut
         Hokb (lb1 & lb2 & Hrb & Hpb)%Permutation_cut Hfile Hq. split.
  - eexists _, _. split; [by apply (put_found_A _ _ _ _ la1 ra la2)|].
    cbn [certificates rows]. split_and!; try done.
    by rewrite <- Permutation_middle, Hpa.
  - eexists _, _. split; [by apply (put_found_B _ _ _ _ lb1 rb lb2)|].
    cbn [certificates rows]. split_and!; try done.
    by rewrite <- Permutation_middle, Hpb.
Qed.

Lemma update_overwrites_metadata_witness :
  (∃ ra' wa',
     AppJs.put_certificate Sample.env_ok 1 Sample.body_a None Sample.world_a =
       (Normal {| status := 200; json := JRow ra' |}, wa')
     ∧ AppJs.description Sample.row_a1 = Some "associate"
     ∧ AppJs.description ra' = None)
  ∧ (∃ rb' wb',
     Part000.put_certificate Sample.env_ok 2 Sample.body_b None
         Sample.world_b =
       (Normal {| status := 200; json := JRow rb' |}, wb')
     ∧ Part000.date Sample.row_b2 = Some "2021-01-01"
     ∧ Part000.date rb' = None).
Proof.
  destruct (update_overwrites_metadata Sample.env_ok None
              Sample.body_a Sample.world_a Sample.row_a1 [Sample.row_a2]
              Sample.body_b Sample.world_b Sample.row_b2
              [Sample.row_b1; Sample.row_b3]
              world_a_ok (reflexivity _) world_b_ok (perm_swap _ _ _)
              (or_introl eq_refl) eq_refl)
    as [(ra' & wa' & Ha & _ & _ & _ & Hda & _)
        (rb' & wb' & Hb & _ & _ & _ & _ & Hdb & _)].
  split; [exists ra', wa' | exists rb', wb']; split_and!;
    try assumption; reflexivity.
Defined.

(** C7: for an identifier that matches no row, Get, Update and Delete leave
    the table exactly as it was, whatever the stores answer; and once the
    calls they make have succeeded (the statement, and for an Update that
    carries a file the upload before it) each answers 404
    [Certificate not found]. *)
Theorem absent_id_not_found env i body file (w : World AppJs.certificate) :
  absent AppJs.id i (certificates w) →
  (certificates (AppJs.get_certificate env i w).2 = certificates w
   ∧ certificates (AppJs.put_certificate env i body file w).2 = certificates w
   ∧ certificates (AppJs.delete_certificate env i w).2 = certificates w)
  ∧ (query_error env = None →
     (AppJs.get_certificate env i w).1 =
       Normal {| status := 404; json := JError "Certificate not found" |}
     ∧ (AppJs.delete_certificate env i w).1 =
       Normal {| status := 404; json := JError "Certificate not found" |}
     ∧ (file = None ∨ upload_error env = None →
        (AppJs.put_certificate env i body file w).1 =
          Normal {| status := 404; json := JError "Certificate not found" |})).
Proof.
  intros Habs. split; [by apply absent_table_unchanged_A|].
  intros Hq. split_and!.
  - by rewrite get_absent_A.
  - by rewrite delete_absent_A.
  - intros Hfile. destruct file as [f|].
    + destruct Hfile as [|Hu]; [done|]. by rewrite put_absent_file_A.
    + by rewrite put_absent_nofile_A.
Qed.

Lemma sample_absent_a : absent AppJs.id 7 (certificates Sample.world_a).
Proof.
  intros r Hr. simpl in Hr. set_unfold in Hr.
  by destruct Hr as [-> | [-> | []]].
Qed.

Lemma sample_absent_b : absent Part000.id 7 (certificates Sample.world_b).
Proof.
  intros r Hr. simpl in Hr. set_unfold in Hr.
  by destruct Hr as [-> | [-> | [-> | []]]].
Qed.

Lemma absent_id_not_found_witness :
  (AppJs.get_certificate Sample.env_ok 7 Sample.world_a).1 =
    Normal {| status := 404; json := JError "Certificate not found" |}
  ∧ (AppJs.delete_certificate Sample.env_ok 7 Sample.world_a).1 =
    Normal {| status := 404; json := JError "Certificate not found" |}
  ∧ (AppJs.put_certificate Sample.env_ok 7 Sample.body_a
       (Some Sample.aws_png) Sample.world_a).1 =
    Normal {| status := 404; json := JError "Certificate not found" |}
  ∧ certificates (AppJs.put_certificate Sample.env_ok 7 Sample.body_a
       (Some Sample.aws_png) Sample.world_a).2 = certificates Sample.world_a.
Proof.
  destruct (absent_id_not_found Sample.env_ok 7 Sample.body_a
              (Some Sample.aws_png) Sample.world_a sample_absent_a)
    as [(_ & Hput & _) H].
  destruct (H eq_refl) as (Hg & Hd & Hp).
  split_and!; [exact Hg | exact Hd | exact (Hp (or_intror eq_refl)) | exact Hput].
Defined.

(** The same for [Part000]. *)
Lemma absent_id_not_found_part000 env i body file
    (w : World Part000.certificate) :
  absent Part000.id i (certificates w) →
  (certificates (Part000.get_certificate env i w).2 = certificates w
   ∧ certificates (Part000.put_certificate env i body file w).2
     = certificates w
   ∧ certificates (Part000.delete_certificate env i w).2 = certificates w)
  ∧ (query_error env = None →
     (Part000.get_certificate env i w).1 =
       Normal {| status := 404; json := JError "Certificate not found" |}
     ∧ (Part000.delete_certificate env i w).1 =
       Normal {| status := 404; json := JError "Certificate not found" |}
     ∧ (file = None ∨ upload_error env = None →
        (Part000.put_certificate env i body file w).1 =
          Normal {| status := 404; json := JError "Certificate not found" |})).
Proof.
  intros Habs. split; [by apply absent_table_unchanged_B|].
  intros Hq. split_and!.
  - by rewrite get_absent_B.
  - by rewrite delete_absent_B.
  - intros Hfile. destruct file as [f|].
    + destruct Hfile as [|Hu]; [done|]. by rewrite put_absent_file_B.
    + by rewrite put_absent_nofile_B.
Qed.

(** C8: in a table with distinct identifiers, a Delete whose statement
    succeeds answers 200 with the row of that identifier and removes that
    row and no other: the rows before it and after it stay, in order; the
    bucket is not touched.  A Get of the same identifier on the resulting
    state answers 404. *)
Theorem delete_removes_row env env' (w : World AppJs.certificate) l1 r l2 :
  table_ok AppJs.id (certificates w) →
  rows (certificates w) = l1 ++ r :: l2 →
  query_error env = None → query_error env' = None →
  ∃ w',
    AppJs.delete_certificate env (AppJs.id r) w =
      (Normal {| status := 200; json := JRow r |}, w')
    ∧ rows (certificates w') = l1 ++ l2
    ∧ next_id (certificates w') = next_id (certificates w)
    ∧ images w' = images w
    ∧ (AppJs.get_certificate env' (AppJs.id r) w').1 =
        Normal {| status := 404; json := JError "Certificate not found" |}.
Proof.
  intros Hok Hrows Hq Hq'. eexists.
  split; [by apply delete_found_A|]. simpl. split_and!; [done..|].
  rewrite get_absent_A; [done| |done]. simpl.
  by apply absent_after_delete.
Qed.

Lemma delete_removes_row_witness :
  ∃ w',
    AppJs.delete_certificate Sample.env_ok 1 Sample.world_a =
      (Normal {| status := 200; json := JRow Sample.row_a1 |}, w')
    ∧ rows (certificates w') = [Sample.row_a2]
    ∧ (AppJs.get_certificate Sample.env_ok 1 w').1 =
        Normal {| status := 404; json := JError "Certificate not found" |}.
Proof.
  destruct (delete_removes_row Sample.env_ok Sample.env_ok Sample.world_a
              [] Sample.row_a1 [Sample.row_a2] world_a_ok eq_refl eq_refl
              eq_refl) as (w' & Hdel & Hrows & _ & _ & Hget).
  exists w'. split_and!; assumption.
Defined.

(** The same for [Part000]. *)
Lemma delete_removes_row_part000 env env' (w : World Part000.certificate)
    l1 r l2 :
  table_ok Part000.id (certificates w) →
  rows (certificates w) = l1 ++ r :: l2 →
  query_error env = None → query_error env' = None →
  ∃ w',
    Part000.delete_certificate env (Part000.id r) w =
      (Normal {| status := 200; json := JRow r |}, w')
    ∧ rows (certificates w') = l1 ++ l2
    ∧ next_id (certificates w') = next_id (certificates w)
    ∧ images w' = images w
    ∧ (Part000.get_certificate env' (Part000.id r) w').1 =
        Normal {| status := 404; json := JError "Certificate not found" |}.
Proof.
  intros Hok Hrows Hq Hq'. eexists.
  split; [by apply delete_found_B|]. simpl. split_and!; [done..|].
  rewrite get_absent_B; [done| |done]. simpl.
  by apply absent_after_delete.
Qed.

(** ** The sorted listings *)

Lemma oldest_ok env w :
  query_error env = None →
  Part000.get_certificates_oldest env w =
    (Normal {| status := 200;
               json := JRows (merge_sort Part000.date_asc
                                (rows (certificates w))) |},
     {| certificates := certificates w; images := images w;
        calls := calls w ++
          [Query "SELECT * FROM certificates ORDER BY date ASC"] |}).
Proof. intros Hq. run_handler. by rewrite Hq. Qed.

Lemma newest_ok env w :
  query_error env = None →
  Part000.get_certificates_newest env w =
    (Normal {| status := 200;
               json := JRows (merge_sort Part000.date_desc
                                (rows (certificates w))) |},
     {| certificates := certificates w; images := images w;
        calls := calls w ++
          [Query "SELECT * FROM certificates ORDER BY date DESC"] |}).
Proof. intros Hq. run_handler. by rewrite Hq. Qed.

(** The scenario of the specification: rows dated 2022-01-01 and
    2021-01-01 (and one without a date). *)
Example oldest_sample :
  (Part000.get_certificates_oldest Sample.env_ok Sample.world_b).1 =
    Normal {| status := 200;
              json := JRows [Sample.row_b2; Sample.row_b1; Sample.row_b3] |}.
Proof. reflexivity. Qed.

Example newest_sample :
  (Part000.get_certificates_newest Sample.env_ok Sample.world_b).1 =
    Normal {| status := 200;
              json := JRows [Sample.row_b3; Sample.row_b1; Sample.row_b2] |}.
Proof. reflexivity. Qed.

(** *** The order of the texts and the order of the calendar *)

Lemma digit_code c n :
  digit c = Some n → char_code c = (48 + n)%N ∧ (n ≤ 9)%N.
Proof.
  unfold digit. intros H. case_decide; simplify_eq. lia.
Qed.

(** On dates written [YYYY-MM-DD] the order of the texts is the order of
    the calendar. *)
Lemma iso_date_order s1 s2 k1 k2 :
  iso_date s1 = Some k1 → iso_date s2 = Some k2 →
  (String.le s1 s2 ↔ (k1 ≤ k2)%N).
Proof.
  unfold iso_date. intros H1 H2.
  do 11 (destruct s1 as [|? s1]; try done).
  do 11 (destruct s2 as [|? s2]; try done).
  cbn [String.list_ascii_of_string] in H1, H2.
  repeat case_decide; try done.
  repeat match goal with
  | H : _ ≫= _ = Some _ |- _ => apply bind_Some in H as (? & ?%digit_code & H)
  end.
  simplify_eq. destruct_and!.
  unfold String.le, String.leb. cbn [String.compare].
  unfold Stdlib.Strings.Ascii.compare.
  repeat match goal with H : char_code _ = _ |- _ =>
    unfold char_code in H; rewrite H; clear H end.
  change (45 ?= 45)%N with Eq. cbv iota.
  repeat match goal with
  | |- context [(?a ?= ?b)%N] => destruct (N.compare_spec a b)
  end; simpl;
    (split; [intros Ht; first [lia | destruct Ht]
            | intros Hle; first [exact I | lia]]).
Qed.

Section SortedLookup.
Context {A : Type} (R : relation A).

(** In a strongly sorted list an element is related to every later
    one. *)
Lemma StronglySorted_lookup_lt (l : list A) i j x y :
  StronglySorted R l → i < j → l !! i = Some x → l !! j = Some y → R x y.
Proof.
  intros Hs. revert i j. induction Hs as [|a l Hs IH Hall]; [done|].
  intros [|i] [|j] Hij Hx Hy; try lia; simplify_eq/=.
  - rewrite Forall_forall in Hall. apply Hall.
    by eapply list_elem_of_lookup_2.
  - apply (IH i j); [lia|done..].
Qed.

End SortedLookup.

(** C9: in the application with dates, when the statement succeeds
    [/certificates/oldest] answers 200 with all the rows of the table, each
    once, and of any two rows whose dates are written [YYYY-MM-DD] the one
    listed first has the earlier date or the same one;
    [/certificates/newest] answers 200 with all the rows, and of any two
    such rows the one listed first has the later date or the same one.
    Neither changes the table or the bucket. *)
Theorem listings_sorted_by_date env (w : World Part000.certificate) :
  query_error env = None →
  (∃ l w',
     Part000.get_certificates_oldest env w =
       (Normal {| status := 200; json := JRows l |}, w')
     ∧ l ≡ₚ rows (certificates w)
     ∧ (∀ i j ri rj di dj ki kj,
          i < j → l !! i = Some ri → l !! j = Some rj →
          Part000.date ri = Some di → Part000.date rj = Some dj →
          iso_date di = Some ki → iso_date dj = Some kj →
          (ki ≤ kj)%N)
     ∧ certificates w' = certificates w ∧ images w' = images w)
  ∧ (∃ l w',
     Part000.get_certificates_newest env w =
       (Normal {| status := 200; json := JRows l |}, w')
     ∧ l ≡ₚ rows (certificates w)
     ∧ (∀ i j ri rj di dj ki kj,
          i < j → l !! i = Some ri → l !! j = Some rj →
          Part000.date ri = Some di → Part000.date rj = Some dj →
          iso_date di = Some ki → iso_date dj = Some kj →
          (kj ≤ ki)%N)
     ∧ certificates w' = certificates w ∧ images w' = images w).
Proof.
  intros Hq. split.
  - eexists _, _. split; [by apply oldest_ok|]. split_and!; [| |done..].
    + apply merge_sort_Permutation.
    + intros i j ri rj di dj ki kj Hij Hi Hj Hdi Hdj Hki Hkj.
      pose proof (StronglySorted_lookup_lt Part000.date_asc _ i j ri rj
                    (StronglySorted_merge_sort _ _) Hij Hi Hj) as Hle.
      unfold Part000.date_asc in Hle. rewrite Hdi, Hdj in Hle.
      by apply (iso_date_order di dj).
  - eexists _, _. split; [by apply newest_ok|]. split_and!; [| |done..].
    + apply merge_sort_Permutation.
    + intros i j ri rj di dj ki kj Hij Hi Hj Hdi Hdj Hki Hkj.
      pose proof (StronglySorted_lookup_lt Part000.date_desc _ i j ri rj
                    (StronglySorted_merge_sort _ _) Hij Hi Hj) as Hle.
      unfold Part000.date_desc in Hle. rewrite Hdi, Hdj in Hle.
      by apply (iso_date_order dj di).
Qed.

Lemma listings_sorted_by_date_witness :
  (∃ l,
     (Part000.get_certificates_oldest Sample.env_ok Sample.world_b).1 =
       Normal {| status := 200; json := JRows l |}
     ∧ l ≡ₚ [Sample.row_b1; Sample.row_b2; Sample.row_b3]
     ∧ ∀ i j ri rj di dj ki kj,
         i < j → l !! i = Some ri → l !! j = Some rj →
         Part000.date ri = Some di → Part000.date rj = Some dj →
         iso_date di = Some ki → iso_date dj = Some kj → (ki ≤ kj)%N)
  ∧ (∃ l,
     (Part000.get_certificates_newest Sample.env_ok Sample.world_b).1 =
       Normal {| status := 200; json := JRows l |}
     ∧ l ≡ₚ [Sample.row_b1; Sample.row_b2; Sample.row_b3]
     ∧ ∀ i j ri rj di dj ki kj,
         i < j → l !! i = Some ri → l !! j = Some rj →
         Part000.date ri = Some di → Part000.date rj = Some dj →
         iso_date di = Some ki → iso_date dj = Some kj → (kj ≤ ki)%N).
Proof.
  destruct (listings_sorted_by_date Sample.env_ok Sample.world_b eq_refl)
    as [(lo & wo & Ho & Hpo & Hso & _) (ln & wn & Hn & Hpn & Hsn & _)].
  split; [exists lo | exists ln]; split_and!; try assumption.
  - by rewrite Ho.
  - by rewrite Hn.
Defined.

(** The two dated rows of the sample, read as the calendar reads them. *)
Example sample_dates :
  iso_date "2021-01-01" = Some 20210101%N
  ∧ iso_date "2022-01-01" = Some 20220101%N
  ∧ iso_date "01/02/2021" = None.
Proof. by vm_compute. Qed.

(** C10: an Update that carries a file, aimed at an identifier that
    matches no row, with both calls succeeding, answers 404 after it has
    stored the file's bytes under [public/<originalname>]: the upload is
    made first, then the statement, which updates nothing.  The table is
    unchanged, so no row comes to refer to the object through this
    request.  Both applications. *)
Theorem update_absent_uploads env i f
    (ba : AppJs.Body) (wa : World AppJs.certificate)
    (bb : Part000.Body) (wb : World Part000.certificate) :
  absent AppJs.id i (certificates wa) →
  absent Part000.id i (certificates wb) →
  upload_error env = None → query_error env = None →
  let blob := {| content := buffer f; contentType := mimetype f |} in
  (∃ wa' text,
     AppJs.put_certificate env i ba (Some f) wa =
       (Normal {| status := 404; json := JError "Certificate not found" |},
        wa')
     ∧ images wa' = <["public/" +:+ originalname f := blob]> (images wa)
     ∧ calls wa' =
         calls wa ++ [Upload ("public/" +:+ originalname f) blob; Query text]
     ∧ certificates wa' = certificates wa)
  ∧ (∃ wb' text,
     Part000.put_certificate env i bb (Some f) wb =
       (Normal {| status := 404; json := JError "Certificate not found" |},
        wb')
     ∧ images wb' = <["public/" +:+ originalname f := blob]> (images wb)
     ∧ calls wb' =
         calls wb ++ [Upload ("public/" +:+ originalname f) blob; Query text]
     ∧ certificates wb' = certificates wb).
Proof.
  intros Ha Hb Hu Hq blob. split.
  - eexists _, _. split; [by apply put_absent_file_A|]. by simpl.
  - eexists _, _. split; [by apply put_absent_file_B|]. by simpl.
Qed.

Lemma update_absent_uploads_witness :
  ∃ wa',
    AppJs.put_certificate Sample.env_ok 7 Sample.body_a (Some Sample.aws_png)
        Sample.world_a =
      (Normal {| status := 404; json := JError "Certificate not found" |},
       wa')
    ∧ Sample.stored !! "public/aws.png" = None
    ∧ images wa' !! "public/aws.png" = Some (blob_of Sample.aws_png).
Proof.
  destruct (update_absent_uploads Sample.env_ok 7 Sample.aws_png
              Sample.body_a Sample.world_a Sample.body_b Sample.world_b
              sample_absent_a sample_absent_b eq_refl eq_refl)
    as [(wa' & text & Hput & Himg & _) _].
  exists wa'. split_and!; [exact Hput | reflexivity |].
  rewrite Himg. apply lookup_insert_eq.
Defined.

(** ** Further facts about the routes *)

(** Every table the server reaches from the initial state has distinct
    identifiers: the hypothesis [table_ok] of the theorems above holds of
    every state the handlers can be run in. *)
Lemma reachable_table_ok_A reqs :
  table_ok AppJs.id
    (certificates (AppJs.serve reqs (initial_world AppJs.certificate))).
Proof.
  apply serve_table_ok_A. split; simpl; [apply NoDup_nil_2 | constructor].
Qed.

Lemma reachable_table_ok_B reqs :
  table_ok Part000.id
    (certificates (Part000.serve reqs (initial_world Part000.certificate))).
Proof.
  apply serve_table_ok_B. split; simpl; [apply NoDup_nil_2 | constructor].
Qed.

(** The row a Create answers with is the row a Get of its identifier
    answers with. *)
Lemma created_row_retrievable_A env env' body f w r w' :
  table_ok AppJs.id (certificates w) →
  AppJs.post_certificate env body (Some f) w =
    (Normal {| status := 200; json := JRow r |}, w') →
  query_error env' = None →
  (AppJs.get_certificate env' (AppJs.id r) w').1 =
    Normal {| status := 200; json := JRow r |}.
Proof.
  intros Hok Hpost Hq'.
  pose proof (handle_table_ok_A env (AppJs.PostCertificate body (Some f)) w Hok)
    as Hok'. unfold AppJs.handle in Hok'. rewrite Hpost in Hok'.
  destruct (truthy (AppJs.body_name body)) eqn:Hn;
    [|rewrite post_rejected_A in Hpost by auto; simplify_eq].
  destruct (upload_error env) as [e|] eqn:Hu;
    [rewrite (post_upload_error_A _ _ _ e) in Hpost by done; simplify_eq|].
  destruct (query_error env) as [e|] eqn:Hq;
    [rewrite (post_insert_error_A _ _ _ e) in Hpost by done; simplify_eq|].
  rewrite post_created_A in Hpost by done. simplify_eq.
  by erewrite (get_found_A _ _ (rows (certificates w)) _ []).
Qed.

Lemma created_row_retrievable_B env env' body f w r w' :
  table_ok Part000.id (certificates w) →
  Part000.post_certificate env body (Some f) w =
    (Normal {| status := 200; json := JRow r |}, w') →
  query_error env' = None →
  (Part000.get_certificate env' (Part000.id r) w').1 =
    Normal {| status := 200; json := JRow r |}.
Proof.
  intros Hok Hpost Hq'.
  pose proof (handle_table_ok_B env (Part000.PostCertificate body (Some f)) w
                Hok) as Hok'. unfold Part000.handle in Hok'.
  rewrite Hpost in Hok'.
  destruct (truthy (Part000.body_title body)) eqn:Hn;
    [|rewrite post_rejected_B in Hpost by auto; simplify_eq].
  destruct (upload_error env) as [e|] eqn:Hu;
    [rewrite (post_upload_error_B _ _ _ e) in Hpost by done; simplify_eq|].
  destruct (query_error env) as [e|] eqn:Hq;
    [rewrite (post_insert_error_B _ _ _ e) in Hpost by done; simplify_eq|].
  rewrite post_created_B in Hpost by done. simplify_eq.
  by erewrite (get_found_B _ _ (rows (certificates w)) _ []).
Qed.

(** An Update without a file changes no row's [image], whether the row
    exists or not and whatever the database answers. *)
Lemma put_nofile_keeps_images_A env i body w :
  (λ r, (AppJs.id r, AppJs.image r)) <$>
    rows (certificates (AppJs.put_certificate env i body None w).2)
  = (λ r, (AppJs.id r, AppJs.image r)) <$> rows (certificates w).
Proof.
  run_handler. destruct (query_error env); [done|].
  at_statement. unfold sql_update_by_id.
  destruct (filter _ _); simpl; rewrite <- list_fmap_compose;
    apply list_fmap_ext; intros _ r _; simpl; by case_decide.
Qed.

Lemma put_nofile_keeps_images_B env i body w :
  (λ r, (Part000.id r, Part000.image r)) <$>
    rows (certificates (Part000.put_certificate env i body None w).2)
  = (λ r, (Part000.id r, Part000.image r)) <$> rows (certificates w).
Proof.
  run_handler. destruct (query_error env); [done|].
  at_statement. unfold sql_update_by_id.
  destruct (filter _ _); simpl; rewrite <- list_fmap_compose;
    apply list_fmap_ext; intros _ r _; simpl; by case_decide.
Qed.


(** * The routes beyond the claims *)

(** ** Statements, continued *)

Section StatementShapes.
Context {Row : Type} (row_id : Row → N).
Implicit Types (l : list Row) (t : Table Row) (r : Row) (i : N).

Lemma filter_id_nil_absent t i :
  filter (λ r, row_id r = i) (rows t) = [] → absent row_id i t.
Proof.
  intros Hnil r Hr Heq.
  assert (r ∈ filter (λ r, row_id r = i) (rows t)) as Hin
    by by apply list_elem_of_filter.
  rewrite Hnil in Hin. by apply elem_of_nil in Hin.
Qed.

(** A statement that returns no row has changed no row. *)
Lemma sql_update_none (set : Row → Row) i t t' :
  sql_update_by_id row_id set i t = (t', []) → t' = t.
Proof.
  unfold sql_update_by_id. intros [= <- Hnil%fmap_nil_inv].
  apply filter_id_nil_absent in Hnil.
  rewrite update_absent by done. by destruct t.
Qed.

Lemma sql_delete_none i t t' :
  sql_delete_by_id row_id i t = (t', []) → t' = t.
Proof.
  unfold sql_delete_by_id. intros [= <- Hnil].
  apply filter_id_nil_absent in Hnil.
  rewrite filter_other_absent by done. by destruct t.
Qed.

(** A row of a table with distinct identifiers is what its identifier
    selects. *)
Lemma sql_select_member t r :
  table_ok row_id t → r ∈ rows t →
  sql_select_by_id row_id (row_id r) t = (t, [r]).
Proof.
  intros Hok (l1 & l2 & Hrows)%list_elem_of_split.
  by apply (sql_select_present _ _ l1 r l2).
Qed.

(** An UPDATE whose SET clause keeps the identifier and gives the same
    row when applied twice: running it again changes nothing and returns
    the same rows. *)
Lemma update_rows_twice (set : Row → Row) i l :
  (∀ r, row_id (set r) = row_id r) → (∀ r, set (set r) = set r) →
  let upd := λ r, if decide (row_id r = i) then set r else r in
  upd <$> (upd <$> l) = upd <$> l
  ∧ filter (λ r, row_id r = i) (upd <$> l)
    = set <$> filter (λ r, row_id r = i) l.
Proof.
  intros Hid Hset upd. induction l as [|x l [IH1 IH2]].
  { split; reflexivity. }
  rewrite !fmap_cons, IH1.
  assert (upd x = if decide (row_id x = i) then set x else x) as Hx by done.
  destruct (decide (row_id x = i)) as [Hi|Hi]; rewrite Hx.
  - assert (upd (set x) = set x) as ->.
    { unfold upd. rewrite decide_True by (by rewrite Hid). apply Hset. }
    split; [done|].
    rewrite !filter_cons_True by (by rewrite ?Hid).
    by rewrite fmap_cons, IH2.
  - assert (upd x = x) as -> by (by rewrite Hx).
    split; [done|]. by rewrite !filter_cons_False by done.
Qed.

Lemma sql_update_twice (set : Row → Row) i t :
  (∀ r, row_id (set r) = row_id r) → (∀ r, set (set r) = set r) →
  sql_update_by_id row_id set i (sql_update_by_id row_id set i t).1
  = sql_update_by_id row_id set i t.
Proof.
  intros Hid Hset. unfold sql_update_by_id. cbn [fst rows next_id].
  destruct (update_rows_twice set i (rows t) Hid Hset) as [-> ->].
  rewrite <- list_fmap_compose.
  f_equal. apply list_fmap_ext. intros _ r _. apply Hset.
Qed.

(** An UPDATE by identifier keeps every identifier in its place. *)
Lemma sql_update_ids (set : Row → Row) i t :
  (∀ r, row_id (set r) = row_id r) →
  row_id <$> rows (sql_update_by_id row_id set i t).1 = row_id <$> rows t.
Proof.
  intros Hid. unfold sql_update_by_id. cbn [fst rows].
  rewrite <- list_fmap_compose. apply list_fmap_ext.
  intros _ r _. simpl. case_decide; auto.
Qed.

End StatementShapes.

(** ** Every route, whatever the stores answer *)

(** Run a request down every path of its handler. *)
Ltac all_routes req :=
  destruct req; run_handler; repeat case_match; simplify_eq;
  unfold log_call in *; cbn [fst snd certificates images calls] in *.

(** The table a statement has left, when it returned no row or only
    reads. *)
Ltac unchanged_table :=
  match goal with
  | H : AppJs.update_certificate _ _ _ _ _ _ _ = (_, []) |- _ =>
      apply sql_update_none in H
  | H : Part000.update_certificate _ _ _ _ _ _ _ = (_, []) |- _ =>
      apply sql_update_none in H
  | H : sql_delete_by_id _ _ _ = (_, []) |- _ => apply sql_delete_none in H
  | H : sql_select_by_id _ _ _ = _ |- _ => injection H as <- _
  | H : sql_select_all _ = _ |- _ => injection H as <- _
  | H : sql_select_where _ _ = _ |- _ => injection H as <- _
  | H : sql_select_order_by _ _ = _ |- _ => injection H as <- _
  end.

Lemma handle_answer_A env req (w : World AppJs.certificate) :
  ∃ res,
    (AppJs.handle env req w).1 = Normal res
    ∧ (status res = 200 ∨ status res = 400 ∨ status res = 404
       ∨ status res = 500)%N
    ∧ (status res = 200%N
       ∨ certificates (AppJs.handle env req w).2 = certificates w).
Proof.
  all_routes req; (eexists; split; [reflexivity|]); cbn [status];
    (split; [auto|]); try (left; reflexivity); right; try done;
    unchanged_table; done.
Qed.

Lemma handle_answer_B env req (w : World Part000.certificate) :
  ∃ res,
    (Part000.handle env req w).1 = Normal res
    ∧ (status res = 200 ∨ status res = 400 ∨ status res = 404
       ∨ status res = 500)%N
    ∧ (status res = 200%N
       ∨ certificates (Part000.handle env req w).2 = certificates w).
Proof.
  all_routes req; (eexists; split; [reflexivity|]); cbn [status];
    (split; [auto|]); try (left; reflexivity); right; try done;
    unchanged_table; done.
Qed.

(** X1: no error escapes a route: whatever the request and whatever the stores
    answer, the handler completes with a response, and its status is 200,
    400, 404 or 500.  Both applications. *)
Theorem every_request_answered env
    (qa : AppJs.Request) (wa : World AppJs.certificate)
    (qb : Part000.Request) (wb : World Part000.certificate) :
  (∃ res, (AppJs.handle env qa wa).1 = Normal res
          ∧ status res ∈ [200; 400; 404; 500]%N)
  ∧ (∃ res, (Part000.handle env qb wb).1 = Normal res
            ∧ status res ∈ [200; 400; 404; 500]%N).
Proof.
  split.
  - destruct (handle_answer_A env qa wa) as (res & Hres & Hst & _).
    exists res. split; [done|]. rewrite !elem_of_cons. tauto.
  - destruct (handle_answer_B env qb wb) as (res & Hres & Hst & _).
    exists res. split; [done|]. rewrite !elem_of_cons. tauto.
Qed.

(** X2: the table is written only under a 200: a request answered 400, 404 or
    500 leaves the table exactly as it was.  Both applications. *)
Theorem table_changes_only_on_200 env
    (qa : AppJs.Request) (wa : World AppJs.certificate)
    (qb : Part000.Request) (wb : World Part000.certificate) :
  (∀ res, (AppJs.handle env qa wa).1 = Normal res → status res ≠ 200%N →
          certificates (AppJs.handle env qa wa).2 = certificates wa)
  ∧ (∀ res, (Part000.handle env qb wb).1 = Normal res → status res ≠ 200%N →
            certificates (Part000.handle env qb wb).2 = certificates wb).
Proof.
  split.
  - intros res Hres Hne.
    destruct (handle_answer_A env qa wa) as (res' & Hres' & _ & [H|H]);
      [|done]. rewrite Hres in Hres'. by simplify_eq.
  - intros res Hres Hne.
    destruct (handle_answer_B env qb wb) as (res' & Hres' & _ & [H|H]);
      [|done]. rewrite Hres in Hres'. by simplify_eq.
Qed.

Lemma table_changes_only_on_200_witness :
  certificates (AppJs.handle Sample.env_ok
                  (AppJs.PutCertificate 7 Sample.body_a (Some Sample.aws_png))
                  Sample.world_a).2 = certificates Sample.world_a
  ∧ certificates (Part000.handle Sample.env_query_fails
                    (Part000.DeleteCertificate 1) Sample.world_b).2
    = certificates Sample.world_b.
Proof.
  destruct (table_changes_only_on_200 Sample.env_ok
              (AppJs.PutCertificate 7 Sample.body_a (Some Sample.aws_png))
              Sample.world_a Part000.GetRoot Sample.world_b) as [Ha _].
  destruct (table_changes_only_on_200 Sample.env_query_fails
              AppJs.GetRoot Sample.world_a
              (Part000.DeleteCertificate 1) Sample.world_b) as [_ Hb].
  split.
  - apply (Ha {| status := 404; json := JError "Certificate not found" |});
      [reflexivity | discriminate].
  - apply (Hb {| status := 500; json := JError "connection terminated" |});
      [reflexivity | discriminate].
Defined.

(** X3: a request makes at most one upload and at most one statement, the
    upload first; a statement follows an upload only when the upload
    reported no error; and the bucket afterwards is the bucket before,
    with the uploaded object stored when, and only when, such an upload
    was made.  Both applications. *)
Theorem one_upload_then_one_statement env
    (qa : AppJs.Request) (wa : World AppJs.certificate)
    (qb : Part000.Request) (wb : World Part000.certificate) :
  (∃ new,
     calls (AppJs.handle env qa wa).2 = calls wa ++ new
     ∧ ((new = [] ∨ ∃ text, new = [Query text])
          ∧ images (AppJs.handle env qa wa).2 = images wa
        ∨ (∃ f e, new = [upload_of f] ∧ upload_error env = Some e
             ∧ images (AppJs.handle env qa wa).2 = images wa)
        ∨ (∃ f text, new = [upload_of f; Query text]
             ∧ upload_error env = None
             ∧ images (AppJs.handle env qa wa).2
               = <[object_path f := blob_of f]> (images wa))))
  ∧ (∃ new,
     calls (Part000.handle env qb wb).2 = calls wb ++ new
     ∧ ((new = [] ∨ ∃ text, new = [Query text])
          ∧ images (Part000.handle env qb wb).2 = images wb
        ∨ (∃ f e, new = [upload_of f] ∧ upload_error env = Some e
             ∧ images (Part000.handle env qb wb).2 = images wb)
        ∨ (∃ f text, new = [upload_of f; Query text]
             ∧ upload_error env = None
             ∧ images (Part000.handle env qb wb).2
               = <[object_path f := blob_of f]> (images wb)))).
Proof.
  split.
  - all_routes qa; eexists; rewrite <- ?app_assoc; cbn [app];
      (split; [first [reflexivity | symmetry; apply app_nil_r]|]).
    all: try by left; eauto.
    all: try by right; left; eauto.
    all: by right; right; eauto.
  - all_routes qb; eexists; rewrite <- ?app_assoc; cbn [app];
      (split; [first [reflexivity | symmetry; apply app_nil_r]|]).
    all: try by left; eauto.
    all: try by right; left; eauto.
    all: by right; right; eauto.
Qed.

(** ** The routes that only read *)

(** Run a handler that makes at most a statement, on both answers of the
    database. *)
Ltac read_route env :=
  run_handler; destruct (query_error env); try done;
  unfold log_call; cbn [fst snd certificates images calls];
  unfold sql_select_all, sql_select_by_id, sql_select_where,
    sql_select_order_by.

(** X4: [GET /], [GET /certificates] and [GET /certificate/:id], and in the
    second application the listings by provider, oldest and newest, never
    write: whatever the database answers, the table and the bucket are
    what they were, and asking again in the resulting state gives the same
    answer. *)
Theorem reads_change_nothing env i p
    (wa : World AppJs.certificate) (wb : World Part000.certificate) :
  Forall (λ h : M AppJs.certificate (Response AppJs.certificate),
            certificates (h wa).2 = certificates wa
            ∧ images (h wa).2 = images wa
            ∧ (h (h wa).2).1 = (h wa).1)
    [AppJs.get_root; AppJs.get_certificates env; AppJs.get_certificate env i]
  ∧ Forall (λ h : M Part000.certificate (Response Part000.certificate),
              certificates (h wb).2 = certificates wb
              ∧ images (h wb).2 = images wb
              ∧ (h (h wb).2).1 = (h wb).1)
      [Part000.get_root; Part000.get_certificates env;
       Part000.get_certificate env i;
       Part000.get_certificates_provider env p;
       Part000.get_certificates_oldest env;
       Part000.get_certificates_newest env].
Proof.
  split; repeat apply Forall_cons_2; try apply Forall_nil_2.
  all: match goal with |- _ ∧ _ ∧ (?h (?h ?w).2).1 = _ =>
         assert (certificates (h w).2 = certificates w) as Hc
           by (read_route env; repeat case_match; by simplify_eq);
         split_and!;
           [ exact Hc
           | read_route env; repeat case_match; by simplify_eq
           | generalize dependent (h w).2; intros w' Hc;
             read_route env; rewrite Hc; repeat case_match; by simplify_eq ]
       end.
Qed.

(** ** When a store fails *)

(** X5: on the routes that go straight to the database (list, get and delete,
    and in the second application the three filtered listings) a statement
    that fails is answered 500 with the database's message; the table and
    the bucket are what they were and the statement is the only call
    made. *)
Theorem failed_statement_500 env e i p
    (wa : World AppJs.certificate) (wb : World Part000.certificate) :
  query_error env = Some e →
  Forall (λ h : M AppJs.certificate (Response AppJs.certificate),
            ∃ text,
              h wa =
                (Normal {| status := 500; json := JError (message e) |},
                 {| certificates := certificates wa; images := images wa;
                    calls := calls wa ++ [Query text] |}))
    [AppJs.get_certificates env; AppJs.get_certificate env i;
     AppJs.delete_certificate env i]
  ∧ Forall (λ h : M Part000.certificate (Response Part000.certificate),
              ∃ text,
                h wb =
                  (Normal {| status := 500; json := JError (message e) |},
                   {| certificates := certificates wb; images := images wb;
                      calls := calls wb ++ [Query text] |}))
      [Part000.get_certificates env; Part000.get_certificate env i;
       Part000.delete_certificate env i;
       Part000.get_certificates_provider env p;
       Part000.get_certificates_oldest env;
       Part000.get_certificates_newest env].
Proof.
  intros Hq.
  split; repeat apply Forall_cons_2; try apply Forall_nil_2.
  all: eexists; run_handler; rewrite Hq; reflexivity.
Qed.

Lemma failed_statement_500_witness :
  (AppJs.delete_certificate Sample.env_query_fails 1 Sample.world_a).1 =
    Normal {| status := 500; json := JError "connection terminated" |}
  ∧ certificates
      (AppJs.delete_certificate Sample.env_query_fails 1 Sample.world_a).2
    = certificates Sample.world_a
  ∧ (Part000.get_certificates_oldest Sample.env_query_fails Sample.world_b).1
    = Normal {| status := 500; json := JError "connection terminated" |}.
Proof.
  destruct (failed_statement_500 Sample.env_query_fails _ 1 ""
              Sample.world_a Sample.world_b eq_refl) as [Ha Hb].
  apply Forall_cons_1 in Ha as [_ Ha]. apply Forall_cons_1 in Ha as [_ Ha].
  apply Forall_cons_1 in Ha as [[ta Ha] _].
  do 4 apply Forall_cons_1 in Hb as [_ Hb].
  apply Forall_cons_1 in Hb as [[tb Hb] _].
  rewrite Ha, Hb. split_and!; reflexivity.
Defined.

(** X6: an Update that carries a file whose upload reports an error is
    answered 500 with the object store's message, found row or not: the
    statement is not issued, and the table and the bucket are what they
    were.  Both applications. *)
Theorem update_upload_error env e i f
    (ba : AppJs.Body) (wa : World AppJs.certificate)
    (bb : Part000.Body) (wb : World Part000.certificate) :
  upload_error env = Some e →
  AppJs.put_certificate env i ba (Some f) wa =
    (Normal {| status := 500; json := JError (message e) |},
     {| certificates := certificates wa; images := images wa;
        calls := calls wa ++
          [Upload ("public/" +:+ originalname f)
             {| content := buffer f; contentType := mimetype f |}] |})
  ∧ Part000.put_certificate env i bb (Some f) wb =
    (Normal {| status := 500; json := JError (message e) |},
     {| certificates := certificates wb; images := images wb;
        calls := calls wb ++
          [Upload ("public/" +:+ originalname f)
             {| content := buffer f; contentType := mimetype f |}] |}).
Proof.
  intros Hu. split; run_handler; rewrite Hu; reflexivity.
Qed.

Lemma update_upload_error_witness :
  AppJs.put_certificate Sample.env_upload_fails 1 Sample.body_a
      (Some Sample.aws_png) Sample.world_a =
    (Normal {| status := 500; json := JError "The resource already exists" |},
     {| certificates := certificates Sample.world_a;
        images := Sample.stored;
        calls := [upload_of Sample.aws_png] |}).
Proof.
  exact (proj1 (update_upload_error Sample.env_upload_fails _ 1
                  Sample.aws_png Sample.body_a Sample.world_a
                  Sample.body_b Sample.world_b eq_refl)).
Defined.

(** X7: an Update whose statement fails is answered 500 with the database's
    message and leaves the table as it was; when it carried a file, the
    upload has already been made and its object stays in the bucket.
    Both applications. *)
Theorem update_statement_error env e i (file : option File)
    (ba : AppJs.Body) (wa : World AppJs.certificate)
    (bb : Part000.Body) (wb : World Part000.certificate) :
  file = None ∨ upload_error env = None →
  query_error env = Some e →
  let stored (m : gmap string Blob) :=
    match file with
    | Some f =>
        <["public/" +:+ originalname f :=
            {| content := buffer f; contentType := mimetype f |}]> m
    | None => m
    end in
  (∃ wa',
     AppJs.put_certificate env i ba file wa =
       (Normal {| status := 500; json := JError (message e) |}, wa')
     ∧ certificates wa' = certificates wa
     ∧ images wa' = stored (images wa))
  ∧ (∃ wb',
     Part000.put_certificate env i bb file wb =
       (Normal {| status := 500; json := JError (message e) |}, wb')
     ∧ certificates wb' = certificates wb
     ∧ images wb' = stored (images wb)).
Proof.
  intros Hfile Hq stored. subst stored.
  destruct file as [f|]; [destruct Hfile as [|Hu]; [done|]|].
  - split; eexists; run_handler; rewrite Hu, Hq;
      (split; [reflexivity|]); by split.
  - split; eexists; run_handler; rewrite Hq;
      (split; [reflexivity|]); by split.
Qed.

Lemma update_statement_error_witness :
  ∃ wa',
    AppJs.put_certificate Sample.env_query_fails 1 Sample.body_a
        (Some Sample.aws_png) Sample.world_a =
      (Normal {| status := 500; json := JError "connection terminated" |},
       wa')
    ∧ certificates wa' = certificates Sample.world_a
    ∧ images wa' !! "public/aws.png" = Some (blob_of Sample.aws_png).
Proof.
  destruct (update_statement_error Sample.env_query_fails _ 1
              (Some Sample.aws_png) Sample.body_a Sample.world_a
              Sample.body_b Sample.world_b (or_intror eq_refl) eq_refl)
    as [(wa' & Hput & Hc & Hi) _].
  exists wa'. split_and!; [exact Hput | exact Hc |].
  rewrite Hi. apply lookup_insert_eq.
Defined.

(** ** The listing by provider *)

(** X8: [GET /certificates/provider/:provider], when its statement succeeds,
    answers 200 with exactly the rows whose provider is the given text, in
    the order of the table; a row without a provider is never listed, and
    a provider that matches nothing gives 200 with the empty list, not a
    404.  The table and the bucket are not touched. *)
Theorem provider_listing env p (w : World Part000.certificate) :
  query_error env = None →
  ∃ l w',
    Part000.get_certificates_provider env p w =
      (Normal {| status := 200; json := JRows l |}, w')
    ∧ l `sublist_of` rows (certificates w)
    ∧ (∀ r, r ∈ l ↔ r ∈ rows (certificates w) ∧ Part000.provider r = Some p)
    ∧ ((∀ r, r ∈ rows (certificates w) → Part000.provider r ≠ Some p) →
       l = [])
    ∧ certificates w' = certificates w ∧ images w' = images w.
Proof.
  intros Hq. eexists _, _. split.
  - run_handler. rewrite Hq. unfold sql_select_where. reflexivity.
  - cbn [certificates images log_call]. split_and!; try done.
    + apply sublist_filter.
    + intros r. rewrite list_elem_of_filter. tauto.
    + intros Hnone. induction (rows (certificates w)) as [|x l IH]; [done|].
      rewrite filter_cons_False by (apply Hnone; by left).
      apply IH. intros r Hr. apply Hnone. by right.
Qed.

Lemma provider_listing_witness :
  (Part000.get_certificates_provider Sample.env_ok "Google" Sample.world_b).1
    = Normal {| status := 200; json := JRows [Sample.row_b1] |}
  ∧ (Part000.get_certificates_provider Sample.env_ok "Nobody"
       Sample.world_b).1
    = Normal {| status := 200; json := JRows [] |}.
Proof.
  destruct (provider_listing Sample.env_ok "Google" Sample.world_b eq_refl)
    as (l1 & w1 & H1 & _).
  destruct (provider_listing Sample.env_ok "Nobody" Sample.world_b eq_refl)
    as (l2 & w2 & H2 & _).
  split.
  - rewrite H1. revert H1. vm_compute. congruence.
  - rewrite H2. revert H2. vm_compute. congruence.
Defined.

(** ** Create, then ... *)

(** X9: a successful Create followed by a Get of the identifier it returned:
    the Get answers 200 with the very row the Create answered with.  Both
    applications, on a table with distinct identifiers. *)
Theorem create_then_get env env' f
    (ba : AppJs.Body) (wa : World AppJs.certificate)
    (bb : Part000.Body) (wb : World Part000.certificate) :
  table_ok AppJs.id (certificates wa) →
  table_ok Part000.id (certificates wb) →
  truthy (AppJs.body_name ba) = true →
  truthy (Part000.body_title bb) = true →
  upload_error env = None → query_error env = None →
  query_error env' = None →
  (∃ r wa',
     AppJs.post_certificate env ba (Some f) wa =
       (Normal {| status := 200; json := JRow r |}, wa')
     ∧ (AppJs.get_certificate env' (AppJs.id r) wa').1 =
         Normal {| status := 200; json := JRow r |})
  ∧ (∃ r wb',
     Part000.post_certificate env bb (Some f) wb =
       (Normal {| status := 200; json := JRow r |}, wb')
     ∧ (Part000.get_certificate env' (Part000.id r) wb').1 =
         Normal {| status := 200; json := JRow r |}).
Proof.
  intros Hoka Hokb Hna Hnb Hu Hq Hq'. split.
  - eexists _, _. split; [by apply post_created_A|].
    eapply (created_row_retrievable_A env env' ba f wa);
      [exact Hoka | by apply post_created_A | exact Hq'].
  - eexists _, _. split; [by apply post_created_B|].
    eapply (created_row_retrievable_B env env' bb f wb);
      [exact Hokb | by apply post_created_B | exact Hq'].
Qed.

Lemma create_then_get_witness :
  ∃ r wa',
    AppJs.post_certificate Sample.env_ok Sample.body_a (Some Sample.aws_png)
        Sample.world_a =
      (Normal {| status := 200; json := JRow r |}, wa')
    ∧ (AppJs.get_certificate Sample.env_ok (AppJs.id r) wa').1 =
        Normal {| status := 200; json := JRow r |}.
Proof.
  exact (proj1 (create_then_get Sample.env_ok Sample.env_ok Sample.aws_png
                  Sample.body_a Sample.world_a Sample.body_b Sample.world_b
                  world_a_ok world_b_ok eq_refl eq_refl eq_refl eq_refl
                  eq_refl)).
Defined.

(** X10: a successful Create followed by a successful Delete of the identifier
    it returned: the Delete answers with the created row, the rows of the
    table are again what they were before the Create, and the uploaded
    object is still in the bucket.  Both applications, on a table with
    distinct identifiers. *)
Theorem create_then_delete env env' f
    (ba : AppJs.Body) (wa : World AppJs.certificate)
    (bb : Part000.Body) (wb : World Part000.certificate) :
  table_ok AppJs.id (certificates wa) →
  table_ok Part000.id (certificates wb) →
  truthy (AppJs.body_name ba) = true →
  truthy (Part000.body_title bb) = true →
  upload_error env = None → query_error env = None →
  query_error env' = None →
  (∃ r wa' wa'',
     AppJs.post_certificate env ba (Some f) wa =
       (Normal {| status := 200; json := JRow r |}, wa')
     ∧ AppJs.delete_certificate env' (AppJs.id r) wa' =
       (Normal {| status := 200; json := JRow r |}, wa'')
     ∧ rows (certificates wa'') = rows (certificates wa)
     ∧ images wa'' !! ("public/" +:+ originalname f) =
         Some {| content := buffer f; contentType := mimetype f |})
  ∧ (∃ r wb' wb'',
     Part000.post_certificate env bb (Some f) wb =
       (Normal {| status := 200; json := JRow r |}, wb')
     ∧ Part000.delete_certificate env' (Part000.id r) wb' =
       (Normal {| status := 200; json := JRow r |}, wb'')
     ∧ rows (certificates wb'') = rows (certificates wb)
     ∧ images wb'' !! ("public/" +:+ originalname f) =
         Some {| content := buffer f; contentType := mimetype f |}).
Proof.
  intros Hoka Hokb Hna Hnb Hu Hq Hq'. split.
  - pose proof (handle_table_ok_A env (AppJs.PostCertificate ba (Some f)) wa
                  Hoka) as Hok'.
    unfold AppJs.handle in Hok'. rewrite post_created_A in Hok' by done.
    eexists _, _, _. split; [by apply post_created_A|].
    split; [by apply (delete_found_A _ _ (rows (certificates wa)) _ [])|].
    cbn [certificates rows images]. split; [apply app_nil_r|].
    apply lookup_insert_eq.
  - pose proof (handle_table_ok_B env (Part000.PostCertificate bb (Some f)) wb
                  Hokb) as Hok'.
    unfold Part000.handle in Hok'. rewrite post_created_B in Hok' by done.
    eexists _, _, _. split; [by apply post_created_B|].
    split; [by apply (delete_found_B _ _ (rows (certificates wb)) _ [])|].
    cbn [certificates rows images]. split; [apply app_nil_r|].
    apply lookup_insert_eq.
Qed.

Lemma create_then_delete_witness :
  ∃ r wa' wa'',
    AppJs.post_certificate Sample.env_ok Sample.body_a (Some Sample.aws_png)
        Sample.world_a =
      (Normal {| status := 200; json := JRow r |}, wa')
    ∧ AppJs.delete_certificate Sample.env_ok (AppJs.id r) wa' =
      (Normal {| status := 200; json := JRow r |}, wa'')
    ∧ rows (certificates wa'') = [Sample.row_a1; Sample.row_a2]
    ∧ images wa'' !! "public/aws.png" = Some (blob_of Sample.aws_png).
Proof.
  exact (proj1 (create_then_delete Sample.env_ok Sample.env_ok Sample.aws_png
                  Sample.body_a Sample.world_a Sample.body_b Sample.world_b
                  world_a_ok world_b_ok eq_refl eq_refl eq_refl eq_refl
                  eq_refl)).
Defined.



(** ** Update, again *)

Lemma set_certificate_twice_A n d img c l r :
  AppJs.set_certificate n d img c l (AppJs.set_certificate n d img c l r)
  = AppJs.set_certificate n d img c l r.
Proof. by destruct img. Qed.

Lemma set_certificate_twice_B t p d l img r :
  Part000.set_certificate t p d l img (Part000.set_certificate t p d l img r)
  = Part000.set_certificate t p d l img r.
Proof. by destruct img. Qed.

Lemma update_certificate_twice_A n d img c l i t :
  AppJs.update_certificate n d img c l i
    (AppJs.update_certificate n d img c l i t).1
  = AppJs.update_certificate n d img c l i t.
Proof.
  apply sql_update_twice; [done|]. apply set_certificate_twice_A.
Qed.

Lemma update_certificate_twice_B t0 p d l img i t :
  Part000.update_certificate t0 p d l img i
    (Part000.update_certificate t0 p d l img i t).1
  = Part000.update_certificate t0 p d l img i t.
Proof.
  apply sql_update_twice; [done|]. apply set_certificate_twice_B.
Qed.

(** The UPDATE has run on the table; run it again. *)
Ltac update_again w :=
  let H := fresh "Htwice" in
  match goal with
  | |- context [AppJs.update_certificate ?a ?b ?c ?d ?e ?i (certificates w)] =>
      pose proof (update_certificate_twice_A a b c d e i (certificates w))
        as H;
      destruct (AppJs.update_certificate a b c d e i (certificates w))
        as [? [|? ?]]
  | |- context [Part000.update_certificate ?a ?b ?c ?d ?e ?i
                  (certificates w)] =>
      pose proof (update_certificate_twice_B a b c d e i (certificates w))
        as H;
      destruct (Part000.update_certificate a b c d e i (certificates w))
        as [? [|? ?]]
  end;
  cbn [fst snd certificates images calls] in *; rewrite H;
  cbn [fst snd certificates images calls].

(** X12: Update is idempotent: the same Update run a second time, in the same
    environment, on the state the first one left, gives the same answer
    and changes neither the table nor the bucket.  This holds whether the
    row exists or not, with or without a file, and whatever the stores
    answer.  Both applications. *)
Theorem update_twice env i (file : option File)
    (ba : AppJs.Body) (wa : World AppJs.certificate)
    (bb : Part000.Body) (wb : World Part000.certificate) :
  let wa1 := (AppJs.put_certificate env i ba file wa).2 in
  let wb1 := (Part000.put_certificate env i bb file wb).2 in
  ((AppJs.put_certificate env i ba file wa1).1
     = (AppJs.put_certificate env i ba file wa).1
   ∧ certificates (AppJs.put_certificate env i ba file wa1).2
     = certificates wa1
   ∧ images (AppJs.put_certificate env i ba file wa1).2 = images wa1)
  ∧ ((Part000.put_certificate env i bb file wb1).1
       = (Part000.put_certificate env i bb file wb).1
     ∧ certificates (Part000.put_certificate env i bb file wb1).2
       = certificates wb1
     ∧ images (Part000.put_certificate env i bb file wb1).2 = images wb1).
Proof.
  intros wa1 wb1. subst wa1 wb1. split.
  - run_handler. destruct file as [f|], (upload_error env), (query_error env);
      try done; unfold log_call; cbn [fst snd certificates images calls].
    all: try (split_and!; by rewrite ?insert_insert_eq).
    all: update_again wa; split_and!; by rewrite ?insert_insert_eq.
  - run_handler. destruct file as [f|], (upload_error env), (query_error env);
      try done; unfold log_call; cbn [fst snd certificates images calls].
    all: try (split_and!; by rewrite ?insert_insert_eq).
    all: update_again wb; split_and!; by rewrite ?insert_insert_eq.
Qed.

(** ** What a write leaves alone *)

Section StatementFrames.
Context {Row : Type} (row_id : Row → N).
Implicit Types (t : Table Row) (r : Row) (i : N).

Lemma sql_update_keeps set i t r :
  r ∈ rows t → row_id r ≠ i → r ∈ rows (sql_update_by_id row_id set i t).1.
Proof.
  intros Hr Hi. unfold sql_update_by_id. cbn [fst rows].
  apply list_elem_of_fmap. exists r. split; [|done]. by rewrite decide_False.
Qed.

Lemma sql_delete_keeps i t r :
  r ∈ rows t → row_id r ≠ i → r ∈ rows (sql_delete_by_id row_id i t).1.
Proof.
  intros Hr Hi. unfold sql_delete_by_id. cbn [fst rows].
  by apply list_elem_of_filter.
Qed.

End StatementFrames.

(** The table an Update or a Delete leaves: the one it found, or the one
    its statement made. *)
Lemma put_table_A env i body file w :
  certificates (AppJs.put_certificate env i body file w).2 = certificates w
  ∨ certificates (AppJs.put_certificate env i body file w).2
    = (AppJs.update_certificate (AppJs.body_name body)
         (AppJs.body_description body) (public_url env <$> file)
         (AppJs.body_category body) (AppJs.body_link body) i
         (certificates w)).1.
Proof.
  run_handler. destruct file as [f|], (upload_error env), (query_error env);
    try (by left); right; unfold log_call;
    cbn [fst snd certificates images calls fmap option_fmap option_map];
    match goal with
    | |- context [let '(_, _) := ?s in _] => by destruct s as [? [|? ?]]
    end.
Qed.

Lemma put_table_B env i body file w :
  certificates (Part000.put_certificate env i body file w).2 = certificates w
  ∨ certificates (Part000.put_certificate env i body file w).2
    = (Part000.update_certificate (Part000.body_title body)
         (Part000.body_provider body) (Part000.body_date body)
         (Part000.body_link body) (public_url env <$> file) i
         (certificates w)).1.
Proof.
  run_handler. destruct file as [f|], (upload_error env), (query_error env);
    try (by left); right; unfold log_call;
    cbn [fst snd certificates images calls fmap option_fmap option_map];
    match goal with
    | |- context [let '(_, _) := ?s in _] => by destruct s as [? [|? ?]]
    end.
Qed.

Lemma delete_table_A env i w :
  certificates (AppJs.delete_certificate env i w).2 = certificates w
  ∨ certificates (AppJs.delete_certificate env i w).2
    = (sql_delete_by_id AppJs.id i (certificates w)).1.
Proof.
  run_handler. destruct (query_error env); [by left|]. right.
  unfold log_call; cbn [fst snd certificates images calls].
  by destruct (sql_delete_by_id _ _ _) as [? [|? ?]].
Qed.

Lemma delete_table_B env i w :
  certificates (Part000.delete_certificate env i w).2 = certificates w
  ∨ certificates (Part000.delete_certificate env i w).2
    = (sql_delete_by_id Part000.id i (certificates w)).1.
Proof.
  run_handler. destruct (query_error env); [by left|]. right.
  unfold log_call; cbn [fst snd certificates images calls].
  by destruct (sql_delete_by_id _ _ _) as [? [|? ?]].
Qed.

Lemma get_member_A env w r :
  table_ok AppJs.id (certificates w) → r ∈ rows (certificates w) →
  query_error env = None →
  (AppJs.get_certificate env (AppJs.id r) w).1 =
    Normal {| status := 200; json := JRow r |}.
Proof.
  intros Hok (l1 & l2 & Hrows)%list_elem_of_split Hq.
  by rewrite (get_found_A _ _ l1 r l2).
Qed.

Lemma get_member_B env w r :
  table_ok Part000.id (certificates w) → r ∈ rows (certificates w) →
  query_error env = None →
  (Part000.get_certificate env (Part000.id r) w).1 =
    Normal {| status := 200; json := JRow r |}.
Proof.
  intros Hok (l1 & l2 & Hrows)%list_elem_of_split Hq.
  by rewrite (get_found_B _ _ l1 r l2).
Qed.

(** X14: an Update or a Delete aimed at one identifier leaves every row of
    another identifier as it is: a Get of that row afterwards answers 200
    with the row unchanged, whatever the Update or Delete itself was
    answered.  Both applications, on a table with distinct identifiers. *)
Theorem other_rows_untouched env env' i (file : option File)
    (ba : AppJs.Body) (wa : World AppJs.certificate) (ra : AppJs.certificate)
    (bb : Part000.Body) (wb : World Part000.certificate)
    (rb : Part000.certificate) :
  table_ok AppJs.id (certificates wa) →
  ra ∈ rows (certificates wa) → AppJs.id ra ≠ i →
  table_ok Part000.id (certificates wb) →
  rb ∈ rows (certificates wb) → Part000.id rb ≠ i →
  query_error env' = None →
  ((AppJs.get_certificate env' (AppJs.id ra)
      (AppJs.put_certificate env i ba file wa).2).1
     = Normal {| status := 200; json := JRow ra |}
   ∧ (AppJs.get_certificate env' (AppJs.id ra)
        (AppJs.delete_certificate env i wa).2).1
     = Normal {| status := 200; json := JRow ra |})
  ∧ ((Part000.get_certificate env' (Part000.id rb)
        (Part000.put_certificate env i bb file wb).2).1
       = Normal {| status := 200; json := JRow rb |}
     ∧ (Part000.get_certificate env' (Part000.id rb)
          (Part000.delete_certificate env i wb).2).1
       = Normal {| status := 200; json := JRow rb |}).
Proof.
  intros Hoka Hra Hia Hokb Hrb Hib Hq'. split_and!.
  - apply get_member_A; [|  |done].
    + apply (handle_table_ok_A env (AppJs.PutCertificate i ba file) wa Hoka).
    + destruct (put_table_A env i ba file wa) as [-> | ->]; [done|].
      by apply sql_update_keeps.
  - apply get_member_A; [|  |done].
    + apply (handle_table_ok_A env (AppJs.DeleteCertificate i) wa Hoka).
    + destruct (delete_table_A env i wa) as [-> | ->]; [done|].
      by apply sql_delete_keeps.
  - apply get_member_B; [|  |done].
    + apply (handle_table_ok_B env (Part000.PutCertificate i bb file) wb Hokb).
    + destruct (put_table_B env i bb file wb) as [-> | ->]; [done|].
      by apply sql_update_keeps.
  - apply get_member_B; [|  |done].
    + apply (handle_table_ok_B env (Part000.DeleteCertificate i) wb Hokb).
    + destruct (delete_table_B env i wb) as [-> | ->]; [done|].
      by apply sql_delete_keeps.
Qed.

Lemma other_rows_untouched_witness :
  (AppJs.get_certificate Sample.env_ok 2
     (AppJs.put_certificate Sample.env_ok 1 Sample.body_a
        (Some Sample.aws_png) Sample.world_a).2).1
    = Normal {| status := 200; json := JRow Sample.row_a2 |}
  ∧ (AppJs.get_certificate Sample.env_ok 2
       (AppJs.delete_certificate Sample.env_ok 1 Sample.world_a).2).1
    = Normal {| status := 200; json := JRow Sample.row_a2 |}.
Proof.
  refine (proj1 (other_rows_untouched Sample.env_ok Sample.env_ok 1
                   (Some Sample.aws_png)
                   Sample.body_a Sample.world_a Sample.row_a2
                   Sample.body_b Sample.world_b Sample.row_b2
                   world_a_ok _ _ world_b_ok _ _ eq_refl)).
  - simpl. set_solver.
  - discriminate.
  - simpl. set_solver.
  - discriminate.
Defined.

(** X15: an Update never adds or removes a row and never changes an
    identifier: the identifiers of the table are the same after it as
    before, each as often, whatever the request carries and whatever the
    stores answer (the order of the rows is left open).  Both
    applications. *)
Theorem update_keeps_identifiers env i (file : option File)
    (ba : AppJs.Body) (wa : World AppJs.certificate)
    (bb : Part000.Body) (wb : World Part000.certificate) :
  AppJs.id <$> rows (certificates (AppJs.put_certificate env i ba file wa).2)
    ≡ₚ AppJs.id <$> rows (certificates wa)
  ∧ Part000.id <$>
      rows (certificates (Part000.put_certificate env i bb file wb).2)
    ≡ₚ Part000.id <$> rows (certificates wb).
Proof.
  split.
  - destruct (put_table_A env i ba file wa) as [-> | ->]; [done|].
    unfold AppJs.update_certificate. by rewrite sql_update_ids.
  - destruct (put_table_B env i bb file wb) as [-> | ->]; [done|].
    unfold Part000.update_certificate. by rewrite sql_update_ids.
Qed.

(** ** Identifiers and names *)

(** X16: from a table whose identifiers are pairwise distinct and below the
    sequence's next value, every run of requests reaches such a table
    again: no route supplies an [id] to INSERT or sets one in UPDATE.
    Both applications. *)
Theorem identifiers_stay_distinct
    (qa : list (Env * AppJs.Request)) (wa : World AppJs.certificate)
    (qb : list (Env * Part000.Request)) (wb : World Part000.certificate) :
  table_ok AppJs.id (certificates wa) →
  table_ok Part000.id (certificates wb) →
  (NoDup (AppJs.id <$> rows (certificates (AppJs.serve qa wa)))
   ∧ Forall (λ r, (AppJs.id r < next_id (certificates (AppJs.serve qa wa)))%N)
       (rows (certificates (AppJs.serve qa wa))))
  ∧ (NoDup (Part000.id <$> rows (certificates (Part000.serve qb wb)))
     ∧ Forall (λ r, (Part000.id r
                     < next_id (certificates (Part000.serve qb wb)))%N)
         (rows (certificates (Part000.serve qb wb)))).
Proof.
  intros Hoka Hokb. split.
  - by apply (serve_table_ok_A qa wa).
  - by apply (serve_table_ok_B qb wb).
Qed.

Lemma identifiers_stay_distinct_witness :
  NoDup (AppJs.id <$> rows (certificates (AppJs.serve
      [(Sample.env_ok,
        AppJs.PostCertificate Sample.body_a (Some Sample.aws_png));
       (Sample.env_ok, AppJs.DeleteCertificate 2);
       (Sample.env_ok,
        AppJs.PostCertificate Sample.body_a (Some Sample.gcp_png))]
      Sample.world_a))).
Proof.
  exact (proj1 (proj1 (identifiers_stay_distinct _ Sample.world_a
                         [] Sample.world_b world_a_ok world_b_ok))).
Defined.

(** X19: the naming of uploads, on two Creates that succeed one after the
    other: the two uploads are requested under the same path, and the two
    rows carry the same [image] URL, exactly when the two files have the
    same original name; their bytes and their MIME types play no part.
    The two rows get different identifiers either way.  Both
    applications. *)
Theorem same_name_same_object env (f1 f2 : File)
    (ba1 ba2 : AppJs.Body) (wa : World AppJs.certificate)
    (bb1 bb2 : Part000.Body) (wb : World Part000.certificate) :
  truthy (AppJs.body_name ba1) = true →
  truthy (AppJs.body_name ba2) = true →
  truthy (Part000.body_title bb1) = true →
  truthy (Part000.body_title bb2) = true →
  upload_error env = None → query_error env = None →
  (∃ r1 r2 w1 w2 p1 p2 b1 b2 t1 t2,
     AppJs.post_certificate env ba1 (Some f1) wa =
       (Normal {| status := 200; json := JRow r1 |}, w1)
     ∧ AppJs.post_certificate env ba2 (Some f2) w1 =
       (Normal {| status := 200; json := JRow r2 |}, w2)
     ∧ calls w2 =
         calls wa ++ [Upload p1 b1; Query t1; Upload p2 b2; Query t2]
     ∧ (p1 = p2 ↔ originalname f1 = originalname f2)
     ∧ (AppJs.image r1 = AppJs.image r2
        ↔ originalname f1 = originalname f2)
     ∧ AppJs.id r1 ≠ AppJs.id r2)
  ∧ (∃ r1 r2 w1 w2 p1 p2 b1 b2 t1 t2,
     Part000.post_certificate env bb1 (Some f1) wb =
       (Normal {| status := 200; json := JRow r1 |}, w1)
     ∧ Part000.post_certificate env bb2 (Some f2) w1 =
       (Normal {| status := 200; json := JRow r2 |}, w2)
     ∧ calls w2 =
         calls wb ++ [Upload p1 b1; Query t1; Upload p2 b2; Query t2]
     ∧ (p1 = p2 ↔ originalname f1 = originalname f2)
     ∧ (Part000.image r1 = Part000.image r2
        ↔ originalname f1 = originalname f2)
     ∧ Part000.id r1 ≠ Part000.id r2).
Proof.
  intros Ha1 Ha2 Hb1 Hb2 Hu Hq.
  assert (Hpath : object_path f1 = object_path f2
                  ↔ originalname f1 = originalname f2).
  { unfold object_path. split; [apply (inj (String.app _)) | by intros ->]. }
  assert (Hurl : Some (public_url env f1) = Some (public_url env f2)
                 ↔ originalname f1 = originalname f2).
  { unfold public_url. split; [|by intros ->].
    intros [= H]. by do 2 apply (inj (String.app _)) in H. }
  split.
  - eexists _, _, _, _, _, _, _, _, _, _.
    split; [by apply post_created_A|].
    split; [by apply post_created_A|].
    cbn [calls certificates next_id AppJs.id AppJs.image].
    split_and!; [by rewrite <- app_assoc | exact Hpath | exact Hurl | lia].
  - eexists _, _, _, _, _, _, _, _, _, _.
    split; [by apply post_created_B|].
    split; [by apply post_created_B|].
    cbn [calls certificates next_id Part000.id Part000.image].
    split_and!; [by rewrite <- app_assoc | exact Hpath | exact Hurl | lia].
Qed.

Lemma same_name_same_object_witness :
  ∃ r1 r2 w1 w2,
    AppJs.post_certificate Sample.env_ok Sample.body_a (Some Sample.aws_png)
        Sample.world_a =
      (Normal {| status := 200; json := JRow r1 |}, w1)
    ∧ AppJs.post_certificate Sample.env_ok Sample.body_a
        (Some {| originalname := "aws.png"; buffer := [];
                 mimetype := "image/jpeg" |}) w1 =
      (Normal {| status := 200; json := JRow r2 |}, w2)
    ∧ AppJs.image r1 = AppJs.image r2
    ∧ AppJs.id r1 ≠ AppJs.id r2.
Proof.
  destruct (same_name_same_object Sample.env_ok Sample.aws_png
              {| originalname := "aws.png"; buffer := [];
                 mimetype := "image/jpeg" |}
              Sample.body_a Sample.body_a Sample.world_a
              Sample.body_b Sample.body_b Sample.world_b
              eq_refl eq_refl eq_refl eq_refl eq_refl eq_refl)
    as [(r1 & r2 & w1 & w2 & p1 & p2 & b1 & b2 & t1 & t2
         & H1 & H2 & _ & _ & Himg & Hid) _].
  exists r1, r2, w1, w2. split_and!; [exact H1 | exact H2 | | exact Hid].
  by apply Himg.
Defined.

(** ** When 400 and 404 are answered *)

(** Name the response a handler has computed. *)
Ltac answer := eexists; split; [reflexivity|]; cbn [status].

(** X17: Create answers 400 exactly when its guard fails: the name (title) is
    missing or empty, or no file came with the request.  No failure of a
    store is ever reported as 400.  Both applications. *)
Theorem create_400_iff env (file : option File)
    (ba : AppJs.Body) (wa : World AppJs.certificate)
    (bb : Part000.Body) (wb : World Part000.certificate) :
  (∃ res, (AppJs.post_certificate env ba file wa).1 = Normal res
          ∧ (status res = 400%N
             ↔ truthy (AppJs.body_name ba) = false ∨ file = None))
  ∧ (∃ res, (Part000.post_certificate env bb file wb).1 = Normal res
            ∧ (status res = 400%N
               ↔ truthy (Part000.body_title bb) = false ∨ file = None)).
Proof.
  split.
  - destruct file as [f|];
      [|rewrite post_rejected_A by auto; answer; split; auto].
    destruct (truthy (AppJs.body_name ba)) eqn:Hn;
      [|rewrite post_rejected_A by auto; answer; split; auto].
    destruct (upload_error env) as [e|] eqn:Hu;
      [rewrite (post_upload_error_A _ _ _ e) by done|
       destruct (query_error env) as [e|] eqn:Hq;
       [rewrite (post_insert_error_A _ _ _ e) by done|
        rewrite post_created_A by done]].
    all: answer; split; [done|]; by intros [|].
  - destruct file as [f|];
      [|rewrite post_rejected_B by auto; answer; split; auto].
    destruct (truthy (Part000.body_title bb)) eqn:Hn;
      [|rewrite post_rejected_B by auto; answer; split; auto].
    destruct (upload_error env) as [e|] eqn:Hu;
      [rewrite (post_upload_error_B _ _ _ e) by done|
       destruct (query_error env) as [e|] eqn:Hq;
       [rewrite (post_insert_error_B _ _ _ e) by done|
        rewrite post_created_B by done]].
    all: answer; split; [done|]; by intros [|].
Qed.

Section Matching.
Context {Row : Type} (row_id : Row → N).

(** Either no row carries the identifier, or the selection has a first
    row. *)
Lemma absent_or_found i (t : Table Row) :
  absent row_id i t
  ∨ ∃ r rs, filter (λ r, row_id r = i) (rows t) = r :: rs
            ∧ ¬ absent row_id i t.
Proof.
  destruct (filter (λ r, row_id r = i) (rows t)) as [|r rs] eqn:Hf.
  - left. by apply filter_id_nil_absent.
  - right. exists r, rs. split; [done|]. intros Habs.
    by rewrite filter_id_absent in Hf.
Qed.

End Matching.

Lemma not_found_iff_A env i (file : option File)
    (ba : AppJs.Body) (wa : World AppJs.certificate) :
  (∃ res, (AppJs.get_certificate env i wa).1 = Normal res
          ∧ (status res = 404%N
             ↔ query_error env = None ∧ absent AppJs.id i (certificates wa)))
  ∧ (∃ res, (AppJs.delete_certificate env i wa).1 = Normal res
            ∧ (status res = 404%N
               ↔ query_error env = None
                 ∧ absent AppJs.id i (certificates wa)))
  ∧ (∃ res, (AppJs.put_certificate env i ba file wa).1 = Normal res
            ∧ (status res = 404%N
               ↔ (file = None ∨ upload_error env = None)
                 ∧ query_error env = None
                 ∧ absent AppJs.id i (certificates wa))).
Proof.
  destruct (absent_or_found AppJs.id i (certificates wa))
    as [Habs | (r & rs & Hf & Hnabs)].
  - (* no row *)
    destruct (query_error env) as [e|] eqn:Hq.
    + split_and!; run_handler; rewrite ?Hq.
      * answer. split; [done|]. by intros [? _].
      * answer. split; [done|]. by intros [? _].
      * destruct file, (upload_error env); answer;
          (split; [done|]); by intros (_ & ? & _).
    + split_and!.
      * rewrite get_absent_A by done. answer. by split.
      * rewrite delete_absent_A by done. answer. by split.
      * destruct file as [f|]; [destruct (upload_error env) as [e|] eqn:Hu|].
        -- run_handler. rewrite Hu. answer. split; [done|]. by intros ([|] & _).
        -- rewrite put_absent_file_A by done. answer. split; auto.
        -- rewrite put_absent_nofile_A by done. answer. split; auto.
  - (* some row *)
    split_and!; run_handler; destruct (query_error env) as [e|] eqn:Hq.
    + answer. split; [done|]. by intros [? _].
    + at_statement. unfold sql_select_by_id. rewrite Hf.
      answer. split; [done|]. by intros [_ ?].
    + answer. split; [done|]. by intros [? _].
    + at_statement. unfold sql_delete_by_id. rewrite Hf.
      answer. split; [done|]. by intros [_ ?].
    + destruct file, (upload_error env); answer;
        (split; [done|]); by intros (_ & ? & _).
    + destruct file as [f|], (upload_error env) as [e|] eqn:Hu;
        at_statement; unfold sql_update_by_id; rewrite ?Hf;
        answer; (split; [done|]).
      all: by intros (_ & _ & ?).
Qed.

Lemma not_found_iff_B env i (file : option File)
    (bb : Part000.Body) (wb : World Part000.certificate) :
  (∃ res, (Part000.get_certificate env i wb).1 = Normal res
          ∧ (status res = 404%N
             ↔ query_error env = None
               ∧ absent Part000.id i (certificates wb)))
  ∧ (∃ res, (Part000.delete_certificate env i wb).1 = Normal res
            ∧ (status res = 404%N
               ↔ query_error env = None
                 ∧ absent Part000.id i (certificates wb)))
  ∧ (∃ res, (Part000.put_certificate env i bb file wb).1 = Normal res
            ∧ (status res = 404%N
               ↔ (file = None ∨ upload_error env = None)
                 ∧ query_error env = None
                 ∧ absent Part000.id i (certificates wb))).
Proof.
  destruct (absent_or_found Part000.id i (certificates wb))
    as [Habs | (r & rs & Hf & Hnabs)].
  - destruct (query_error env) as [e|] eqn:Hq.
    + split_and!; run_handler; rewrite ?Hq.
      * answer. split; [done|]. by intros [? _].
      * answer. split; [done|]. by intros [? _].
      * destruct file, (upload_error env); answer;
          (split; [done|]); by intros (_ & ? & _).
    + split_and!.
      * rewrite get_absent_B by done. answer. by split.
      * rewrite delete_absent_B by done. answer. by split.
      * destruct file as [f|]; [destruct (upload_error env) as [e|] eqn:Hu|].
        -- run_handler. rewrite Hu. answer. split; [done|]. by intros ([|] & _).
        -- rewrite put_absent_file_B by done. answer. split; auto.
        -- rewrite put_absent_nofile_B by done. answer. split; auto.
  - split_and!; run_handler; destruct (query_error env) as [e|] eqn:Hq.
    + answer. split; [done|]. by intros [? _].
    + at_statement. unfold sql_select_by_id. rewrite Hf.
      answer. split; [done|]. by intros [_ ?].
    + answer. split; [done|]. by intros [? _].
    + at_statement. unfold sql_delete_by_id. rewrite Hf.
      answer. split; [done|]. by intros [_ ?].
    + destruct file, (upload_error env); answer;
        (split; [done|]); by intros (_ & ? & _).
    + destruct file as [f|], (upload_error env) as [e|] eqn:Hu;
        at_statement; unfold sql_update_by_id; rewrite ?Hf;
        answer; (split; [done|]).
      all: by intros (_ & _ & ?).
Qed.

(** X18: Get, Update and Delete answer 404 exactly when the calls they make
    report no error and the identifier matches no row: a 404 is never
    the answer for an identifier that is in the table, and never hides a
    failure of a store. *)
Theorem not_found_iff env i (file : option File)
    (ba : AppJs.Body) (wa : World AppJs.certificate)
    (bb : Part000.Body) (wb : World Part000.certificate) :
  ((∃ res, (AppJs.get_certificate env i wa).1 = Normal res
           ∧ (status res = 404%N
              ↔ query_error env = None
                ∧ absent AppJs.id i (certificates wa)))
   ∧ (∃ res, (AppJs.delete_certificate env i wa).1 = Normal res
             ∧ (status res = 404%N
                ↔ query_error env = None
                  ∧ absent AppJs.id i (certificates wa)))
   ∧ (∃ res, (AppJs.put_certificate env i ba file wa).1 = Normal res
             ∧ (status res = 404%N
                ↔ (file = None ∨ upload_error env = None)
                  ∧ query_error env = None
                  ∧ absent AppJs.id i (certificates wa))))
  ∧ ((∃ res, (Part000.get_certificate env i wb).1 = Normal res
             ∧ (status res = 404%N
                ↔ query_error env = None
                  ∧ absent Part000.id i (certificates wb)))
     ∧ (∃ res, (Part000.delete_certificate env i wb).1 = Normal res
               ∧ (status res = 404%N
                  ↔ query_error env = None
                    ∧ absent Part000.id i (certificates wb)))
     ∧ (∃ res, (Part000.put_certificate env i bb file wb).1 = Normal res
               ∧ (status res = 404%N
                  ↔ (file = None ∨ upload_error env = None)
                    ∧ query_error env = None
                    ∧ absent Part000.id i (certificates wb)))).
Proof.
  split.
  - apply not_found_iff_A.
  - apply not_found_iff_B.
Qed.

(** ** Update, then Get *)

(** X13: a successful Update of an existing row followed by a Get of the same
    identifier: the Get answers 200 with the very row the Update answered
    with.  Both applications, on a table with distinct identifiers. *)
Theorem update_then_get env env' (file : option File)
    (ba : AppJs.Body) (wa : World AppJs.certificate) la1 ra la2
    (bb : Part000.Body) (wb : World Part000.certificate) lb1 rb lb2 :
  table_ok AppJs.id (certificates wa) →
  rows (certificates wa) = la1 ++ ra :: la2 →
  table_ok Part000.id (certificates wb) →
  rows (certificates wb) = lb1 ++ rb :: lb2 →
  file = None ∨ upload_error env = None →
  query_error env = None → query_error env' = None →
  (∃ r' wa',
     AppJs.put_certificate env (AppJs.id ra) ba file wa =
       (Normal {| status := 200; json := JRow r' |}, wa')
     ∧ (AppJs.get_certificate env' (AppJs.id ra) wa').1 =
         Normal {| status := 200; json := JRow r' |})
  ∧ (∃ r' wb',
     Part000.put_certificate env (Part000.id rb) bb file wb =
       (Normal {| status := 200; json := JRow r' |}, wb')
     ∧ (Part000.get_certificate env' (Part000.id rb) wb').1 =
         Normal {| status := 200; json := JRow r' |}).
Proof.
  intros Hoka Hra Hokb Hrb Hfile Hq Hq'. split.
  - pose proof (handle_table_ok_A env
                  (AppJs.PutCertificate (AppJs.id ra) ba file) wa Hoka) as Hok'.
    unfold AppJs.handle in Hok'.
    rewrite (put_found_A _ _ _ _ la1 ra la2) in Hok' |- * by done.
    eexists _, _. split; [reflexivity|]. cbn [snd] in Hok' |- *.
    match goal with |- context [JRow ?r] =>
      change (AppJs.id ra) with (AppJs.id r);
      by rewrite (get_found_A env' _ la1 r la2)
    end.
  - pose proof (handle_table_ok_B env
                  (Part000.PutCertificate (Part000.id rb) bb file) wb Hokb)
      as Hok'.
    unfold Part000.handle in Hok'.
    rewrite (put_found_B _ _ _ _ lb1 rb lb2) in Hok' |- * by done.
    eexists _, _. split; [reflexivity|]. cbn [snd] in Hok' |- *.
    match goal with |- context [JRow ?r] =>
      change (Part000.id rb) with (Part000.id r);
      by rewrite (get_found_B env' _ lb1 r lb2)
    end.
Qed.

Lemma update_then_get_witness :
  ∃ r' wa',
    AppJs.put_certificate Sample.env_ok 1 Sample.body_a (Some Sample.aws_png)
        Sample.world_a =
      (Normal {| status := 200; json := JRow r' |}, wa')
    ∧ (AppJs.get_certificate Sample.env_ok 1 wa').1 =
        Normal {| status := 200; json := JRow r' |}.
Proof.
  exact (proj1 (update_then_get Sample.env_ok Sample.env_ok
                  (Some Sample.aws_png)
                  Sample.body_a Sample.world_a [] Sample.row_a1
                  [Sample.row_a2]
                  Sample.body_b Sample.world_b [Sample.row_b1] Sample.row_b2
                  [Sample.row_b3]
                  world_a_ok eq_refl world_b_ok eq_refl (or_intror eq_refl)
                  eq_refl eq_refl)).
Defined.
